(** * receive_data_chunks.py: ring buffer, error report and pacing loop

    A shallow embedding of [getRingbufferValues], [sendDetectedError] and the
    loop of [main] from [src/receive_data_chunks.py], with the part of NumPy
    the three functions rely on: array construction from Python lists, basic
    slicing, and slice assignment with broadcasting.

    Python objects that are mutated in place ([data_buffer],
    [timestamp_buffer]) live in a store that is threaded through every
    statement; an exception leaves the store as the statements before it
    made it. *)

From Stdlib Require Import Floats QArith.
From stdpp Require Import base list strings sorting.

Set Warnings "-inexact-float".

(** ** Numbers

    The program computes with Python floats (binary64).  Samples and time
    values are only moved around by the ring buffer; the report and the
    throttle subtract and compare them.  The development is generic in the
    carrier and instantiated with binary64 and with exact rationals. *)

Class Number (F : Type) := {
  zero : F;                 (* an entry of [np.zeros] *)
  sub : F -> F -> F;        (* [a - b] *)
  ltb : F -> F -> bool;     (* [a < b] *)
  leb : F -> F -> bool      (* [a <= b] *)
}.

#[export] Instance float_number : Number float := {|
  zero := 0%float;
  sub := PrimFloat.sub;
  ltb := PrimFloat.ltb;
  leb := PrimFloat.leb
|}.

#[export] Instance Q_number : Number Q := {|
  zero := 0%Q;
  sub := Qminus;
  ltb := fun a b => negb (Qle_bool b a);
  leb := Qle_bool
|}.

(** ** Exceptions and the store-passing monad *)

Inductive exn :=
| ValueError          (* NumPy: shapes cannot be broadcast / ragged nesting *)
| IndexError          (* index out of bounds *)
| UnboundLocalError.  (* a local variable read before assignment *)

(** [UnboundLocalError] is a subclass of [NameError]. *)
Definition is_NameError (e : exn) : bool :=
  match e with UnboundLocalError => true | _ => false end.

(** Outcome of running statements on a store [S]: normal completion, an
    exception, or a scripted environment that has no answer left for a call
    (only [main] talks to an environment). *)
Inductive outcome (S A : Type) :=
| Ret (a : A) (s : S)
| Raise (e : exn) (s : S)
| Starved (s : S).
Arguments Ret {S A} a s.
Arguments Raise {S A} e s.
Arguments Starved {S A} s.

Definition M (S A : Type) : Type := S -> outcome S A.

Definition ret {S A} (a : A) : M S A := fun s => Ret a s.
Definition raise {S A} (e : exn) : M S A := fun s => Raise e s.
Definition bind {S A B} (m : M S A) (k : A -> M S B) : M S B :=
  fun s => match m s with
           | Ret a s' => k a s'
           | Raise e s' => Raise e s'
           | Starved s' => Starved s'
           end.
Definition gets {S A} (f : S -> A) : M S A := fun s => Ret (f s) s.
Definition modify {S} (f : S -> S) : M S unit := fun s => Ret tt (f s).

Notation "x <- m ;; k" := (bind m (fun x => k))
  (at level 100, m at next level, right associativity).
Notation "'do' m ;; k" := (bind m (fun _ => k))
  (at level 100, m at next level, right associativity).

(** Pure steps that may raise. *)
#[export] Instance exn_bind : MBind (sum exn) :=
  fun A B k r => match r with inl e => inl e | inr a => k a end.

Definition final_store {S A} (o : outcome S A) : S :=
  match o with Ret _ s | Raise _ s | Starved s => s end.

(** ** The NumPy fragment

    Arrays are modelled by their values.  A basic slice is a view on the
    array it was taken from; the program reads every view in the statement
    that follows its creation, and NumPy reads the source of an assignment
    as it was before the assignment when source and target overlap, so a
    view is the value of the slice at the time it is taken.  An assignment
    whose shapes do not fit raises before it writes anything. *)

Module Numpy.
Section Arrays.
Context {F : Type}.

(** A two-dimensional array of shape [(length rows, ncols)]; every row has
    [ncols] entries (see [wf]). *)
Record matrix := Matrix { ncols : nat; rows : list (list F) }.

Definition wf (b c : nat) (a : matrix) : Prop :=
  ncols a = c /\ length (rows a) = b
  /\ Forall (fun r => length r = c) (rows a).

(** The values that occur on the right of an assignment. *)
Inductive ndarray :=
| Scalar (x : F)          (* a Python float, shape [()] *)
| Vec (xs : list F)       (* shape [(length xs,)] *)
| Mat (a : matrix).       (* shape [(length (rows a), ncols a)] *)

Definition shape (a : ndarray) : list nat :=
  match a with
  | Scalar _ => []
  | Vec xs => [length xs]
  | Mat a => [length (rows a); ncols a]
  end.

(** [np.array(chunk)] for a list of lists.  The empty list gives the
    one-dimensional empty array of shape [(0,)]; rows of one common width
    give a matrix; ragged rows are refused ([ValueError], NumPy >= 1.24). *)
Definition np_array2 (chunk : list (list F)) : exn + ndarray :=
  match chunk with
  | [] => inr (Vec [])
  | r :: rs =>
      if forallb (fun r' => length r' =? length r) rs
      then inr (Mat (Matrix (length r) chunk))
      else inl ValueError
  end.

(** [np.array(timestamps)] for a flat list. *)
Definition np_array1 (timestamps : list F) : ndarray := Vec timestamps.

(** [a.shape[0]] *)
Definition shape0 (a : ndarray) : exn + nat :=
  match shape a !! 0 with Some n => inr n | None => inl IndexError end.

(** Bounds of the slice [lo:hi] on an axis of length [len] (non-negative
    bounds; a missing [hi] is the end): start and number of selected
    indices. *)
Definition slice_bounds (lo : nat) (hi : option nat) (len : nat)
    : nat * nat :=
  let lo' := lo `min` len in
  let hi' := match hi with Some h => h `min` len | None => len end in
  (lo', hi' - lo').

(** [a[n:, :]] *)
Definition rows_from (n : nat) (a : matrix) : matrix :=
  Matrix (ncols a) (drop n (rows a)).

(** [a[n:, j]] *)
Definition col_from (n j : nat) (a : matrix) : exn + list F :=
  if j <? ncols a then
    match mapM (fun r => r !! j) (drop n (rows a)) with
    | Some xs => inr xs
    | None => inl IndexError
    end
  else inl IndexError.

(** Broadcasting a right-hand side to the one-dimensional shape [(m,)].
    Equal length or length one; a right-hand side with more dimensions than
    the target only when its leading dimensions are one. *)
Definition broadcast1 (m : nat) (src : ndarray) : option (list F) :=
  let of_list xs :=
    if length xs =? m then Some xs
    else match xs with [x] => Some (replicate m x) | _ => None end in
  match src with
  | Scalar x => Some (replicate m x)
  | Vec xs => of_list xs
  | Mat a => match rows a with [r] => of_list r | _ => None end
  end.

(** Broadcasting a right-hand side to the shape [(m, c)]: shapes are
    compared from the last axis; each axis of the source must have the
    target's length or length one. *)
Definition broadcast2 (m c : nat) (src : ndarray) : option (list (list F)) :=
  match src with
  | Scalar x => Some (replicate m (replicate c x))
  | Vec xs => r ← broadcast1 c (Vec xs); Some (replicate m r)
  | Mat a =>
      let n := length (rows a) in
      let w := ncols a in
      if ((w =? c) || (w =? 1)) && ((n =? m) || (n =? 1)) then
        rs ← mapM (fun r => broadcast1 c (Vec r)) (rows a);
        if n =? m then Some rs
        else match rs with [r] => Some (replicate m r) | _ => None end
      else None
  end.

(** [a[lo:hi, :] = src] *)
Definition setitem_rows (lo : nat) (hi : option nat) (src : ndarray)
    (a : matrix) : exn + matrix :=
  let '(lo', m) := slice_bounds lo hi (length (rows a)) in
  match broadcast2 m (ncols a) src with
  | None => inl ValueError
  | Some new =>
      inr (Matrix (ncols a)
             (take lo' (rows a) ++ new ++ drop (lo' + m) (rows a)))
  end.

(** [a[lo:hi, j] = src] *)
Definition setitem_col (lo : nat) (hi : option nat) (j : nat) (src : ndarray)
    (a : matrix) : exn + matrix :=
  if j <? ncols a then
    let '(lo', m) := slice_bounds lo hi (length (rows a)) in
    match broadcast1 m src with
    | None => inl ValueError
    | Some vals =>
        inr (Matrix (ncols a)
               (take lo' (rows a)
                ++ zip_with (fun r v => <[j:=v]> r)
                     (take m (drop lo' (rows a))) vals
                ++ drop (lo' + m) (rows a)))
    end
  else inl IndexError.

(** [np.zeros((b, c))] *)
Definition np_zeros `{Number F} (b c : nat) : matrix :=
  Matrix c (replicate b (replicate c zero)).

End Arrays.
Arguments matrix : clear implicits.
Arguments ndarray : clear implicits.
End Numpy.
Import Numpy.

(** ** The ring buffer: [getRingbufferValues] *)

Section RingBuffer.
Context {F : Type}.

(** The two arrays the function receives by reference and mutates. *)
Record buffers := Buffers {
  data_buffer : matrix F;        (* shape (buffer_size, n_channels) *)
  timestamp_buffer : matrix F    (* shape (buffer_size, 3) *)
}.

Definition lift {S A} (r : exn + A) : M S A :=
  match r with inl e => raise e | inr a => ret a end.

(** An assignment into [data_buffer] / [timestamp_buffer]. *)
Definition assign_data (f : matrix F -> exn + matrix F) : M buffers unit :=
  fun s => match f (data_buffer s) with
           | inl e => Raise e s
           | inr a => Ret tt (Buffers a (timestamp_buffer s))
           end.
Definition assign_time (f : matrix F -> exn + matrix F) : M buffers unit :=
  fun s => match f (timestamp_buffer s) with
           | inl e => Raise e s
           | inr a => Ret tt (Buffers (data_buffer s) a)
           end.

(** One column of the time record: shift up by [n_samples], then write the
    new values (lines 53-55, 58-60 and 62-64). *)
Definition shift_column (n_samples j : nat) (new : ndarray F)
    : M buffers unit :=
  temp <- (fun s => lift (col_from n_samples j (timestamp_buffer s)) s) ;;
  do assign_time (setitem_col 0 (Some (length temp)) j (Vec temp)) ;;
  assign_time (setitem_col (length temp) None j new).

(** Lines 25-66.  The function returns the two arrays it was given, after
    mutating them in place; here they stay in the store and nothing is
    returned. *)
Definition getRingbufferValues (chunk : list (list F)) (timestamps : list F)
    (current_local_time timestamp_offset : F) : M buffers unit :=
  (* data *)
  current_chunk <- lift (np_array2 chunk) ;;
  n_samples <- lift (shape0 current_chunk) ;;
  temp_data <- gets (fun s => rows_from n_samples (data_buffer s)) ;;
  do assign_data
       (setitem_rows 0 (Some (length (rows temp_data))) (Mat temp_data)) ;;
  do assign_data (setitem_rows (length (rows temp_data)) None current_chunk) ;;
  (* timestamps *)
  let current_timestamp_buffer := np_array1 timestamps in
  do shift_column n_samples 0 current_timestamp_buffer ;;
  (* current local time and offset correction *)
  do shift_column n_samples 1 (Scalar current_local_time) ;;
  shift_column n_samples 2 (Scalar timestamp_offset).

End RingBuffer.
Arguments buffers : clear implicits.

(** ** The report: [sendDetectedError] *)

Section Report.
Context {F : Type} `{Number F}.

(** The JSON object [myobj]. *)
Record report := Report {
  team : string;
  secret : string;
  host_timestamp : F;
  comp_time : F;
  comm_delay : F
}.

(** The effect of the function: one HTTP POST. *)
Inductive request := Post (url : string) (json : report).

Definition url : string := "http://10.250.223.221:5000/results".

(** [vals[i]] on a one-dimensional array. *)
Definition item (vals : list F) (i : nat) : exn + F :=
  match vals !! i with Some v => inr v | None => inl IndexError end.

(** Lines 69-93: the request the function sends. *)
Definition sendDetectedError (team_name secret_id : string)
    (timestamp_buffer_vals : list F) (local_clock_time : F) : exn + request :=
  (* calculate the final values for the timings *)
  v1 ← item timestamp_buffer_vals 1;
  v0 ← item timestamp_buffer_vals 0;
  v2 ← item timestamp_buffer_vals 2;
  let comm_delay := sub (sub v1 v0) v2 in
  v1' ← item timestamp_buffer_vals 1;
  let computation_time := sub local_clock_time v1' in
  (* connection to API for sending the results online *)
  h ← item timestamp_buffer_vals 0;
  let myobj := Report team_name secret_id h computation_time comm_delay in
  inr (Post url myobj).

End Report.
Arguments report : clear implicits.
Arguments request : clear implicits.

(** ** The pacing loop of [main]

    The stream inlet and the clocks are the environment.  It is scripted:
    for each function the environment holds the answers it will give, in call
    order.  Every call and every completed buffer update is appended to a
    trace. *)

Section Main.
Context {F : Type} `{Number F}.

Record env := Env {
  pull_chunk : list (list (list F) * list F);   (* inlet.pull_chunk() *)
  local_clock : list F;                         (* local_clock() *)
  time_correction : list F;                     (* inlet.time_correction() *)
  perf_counter : list F                         (* perf_counter() *)
}.

Inductive event :=
| Polled (n : nat)          (* pull_chunk() returned n samples *)
| LocalClock (t : F)
| TimeCorrection (c : F)
| PerfCounter (t : F)
| Appended.                 (* getRingbufferValues returned *)

(** The local variables of [main] that the loop reads or writes, the rest of
    the environment script, and the trace so far.  A local that has not been
    assigned yet is [None]. *)
Record world := World {
  bufs : buffers F;
  timestamp_offset : option F;
  local_clock_time : option F;
  old_time : option F;
  script : env;
  trace : list event
}.

Definition log (ev : event) : M world unit :=
  modify (fun w => World (bufs w) (timestamp_offset w) (local_clock_time w)
                     (old_time w) (script w) (trace w ++ [ev])).

Definition set_script (e : env) : M world unit :=
  modify (fun w => World (bufs w) (timestamp_offset w) (local_clock_time w)
                     (old_time w) e (trace w)).

Definition set_timestamp_offset (c : F) : M world unit :=
  modify (fun w => World (bufs w) (Some c) (local_clock_time w)
                     (old_time w) (script w) (trace w)).

Definition set_local_clock_time (t : F) : M world unit :=
  modify (fun w => World (bufs w) (timestamp_offset w) (Some t)
                     (old_time w) (script w) (trace w)).

Definition set_old_time (t : F) : M world unit :=
  modify (fun w => World (bufs w) (timestamp_offset w) (local_clock_time w)
                     (Some t) (script w) (trace w)).

(** Reading a local: unbound raises. *)
Definition load {A} (var : world -> option A) : M world A :=
  fun w => match var w with
           | Some a => Ret a w
           | None => Raise UnboundLocalError w
           end.

(** A call to the environment takes the next scripted answer. *)
Definition call {A} (answers : env -> list A) (rest : env -> list A -> env)
    (ev : A -> event) : M world A :=
  e <- gets script ;;
  match answers e with
  | [] => fun w => Starved w
  | a :: more => do set_script (rest e more) ;; do log (ev a) ;; ret a
  end.

Definition call_pull_chunk : M world (list (list F) * list F) :=
  call pull_chunk
       (fun e more =>
          Env more (local_clock e) (time_correction e) (perf_counter e))
       (fun r => Polled (length r.1)).
Definition call_local_clock : M world F :=
  call local_clock
       (fun e more =>
          Env (pull_chunk e) more (time_correction e) (perf_counter e))
       LocalClock.
Definition call_time_correction : M world F :=
  call time_correction
       (fun e more =>
          Env (pull_chunk e) (local_clock e) more (perf_counter e))
       TimeCorrection.
Definition call_perf_counter : M world F :=
  call perf_counter
       (fun e more =>
          Env (pull_chunk e) (local_clock e) (time_correction e) more)
       PerfCounter.

(** Statements on the two buffers, run inside [main]. *)
Definition on_buffers {A} (m : M (buffers F) A) : M world A :=
  fun w =>
    let put b := World b (timestamp_offset w) (local_clock_time w)
                   (old_time w) (script w) (trace w) in
    match m (bufs w) with
    | Ret a b => Ret a (put b)
    | Raise e b => Raise e (put b)
    | Starved b => Starved (put b)
    end.

(** Lines 168-169: [while((perf_counter()-old_time) < dt_read_buffer): pass].
    Each test calls [perf_counter()] and then reads [old_time]; the loop is
    bounded by the readings the script holds. *)
Fixpoint busy_wait (dt_read_buffer : F) (readings : nat) : M world unit :=
  match readings with
  | 0 => fun w => Starved w
  | S readings' =>
      now <- call_perf_counter ;;
      old <- load old_time ;;
      if ltb (sub now old) dt_read_buffer
      then busy_wait dt_read_buffer readings'
      else ret tt
  end.

Definition throttle (dt_read_buffer : F) : M world unit :=
  e <- gets script ;;
  busy_wait dt_read_buffer (S (length (perf_counter e))).

(** Lines 143-180: the body of [while running]. *)
Definition loop_body (dt_read_buffer : F) : M world unit :=
  polled <- call_pull_chunk ;;
  let '(chunk, timestamps) := polled in
  do match chunk with
     | [] => ret tt
     | _ :: _ =>
         (* get timing info *)
         current_local_time <- call_local_clock ;;
         offset <- call_time_correction ;;
         do set_timestamp_offset offset ;;
         do on_buffers
              (getRingbufferValues chunk timestamps current_local_time offset) ;;
         do log Appended ;;
         t <- call_local_clock ;;
         do set_local_clock_time t ;;
         (* wait for some time to ensure a "fixed" frequency *)
         throttle dt_read_buffer
     end ;;
  t <- call_perf_counter ;;
  set_old_time t.

(** [running] is never cleared; [Ret] after [iterations] rounds is the loop
    about to start the next round. *)
Fixpoint while_running (dt_read_buffer : F) (iterations : nat)
    : M world unit :=
  match iterations with
  | 0 => ret tt
  | S n => do loop_body dt_read_buffer ;; while_running dt_read_buffer n
  end.

(** [main], from the allocation of the buffers on (lines 134-180);
    [buffer_size] and [dt_read_buffer] are the user parameters (2500 and
    0.04 in the source), [channel_count] is what the stream declares.
    Resolving the stream and printing its meta data (lines 115-122) touch
    none of the variables of the loop and are left out. *)
Definition main (buffer_size channel_count : nat) (dt_read_buffer : F)
    (iterations : nat) (e : env) : outcome world unit :=
  (offset <- call_time_correction ;;
   do set_timestamp_offset offset ;;
   while_running dt_read_buffer iterations)
  (World
     (Buffers (np_zeros buffer_size channel_count) (np_zeros buffer_size 3))
     None None None e []).

End Main.
Arguments env : clear implicits.
Arguments event : clear implicits.
Arguments world : clear implicits.

(** * Vocabulary of the statements *)

Section Columns.
Context {F : Type}.

(** Column [j] of a list of rows, and the rows with column [j] overwritten. *)
Definition column (j : nat) (rs : list (list F)) : list F :=
  omap (fun r => r !! j) rs.
Definition put_col (j : nat) (rs : list (list F)) (vals : list F)
    : list (list F) :=
  zip_with (fun r v => <[j:=v]> r) rs vals.

End Columns.

Section Logic.
Context {S : Type}.

(** [hoare P m Q X]: from a store satisfying [P], [m] either returns [a] in a
    store satisfying [Q a], or stops (with exception [Some e], or starved,
    [None]) in a store satisfying [X]. *)
Definition hoare {A} (P : S -> Prop) (m : M S A) (Q : A -> S -> Prop)
    (X : option exn -> S -> Prop) : Prop :=
  forall s, P s ->
    match m s with
    | Ret a s' => Q a s'
    | Raise e s' => X (Some e) s'
    | Starved s' => X None s'
    end.

Definition not_name_error (oe : option exn) : Prop :=
  forall x, oe = Some x -> is_NameError x = false.

(** Statements that never raise a [NameError]. *)
Definition harmless {A} (m : M S A) : Prop :=
  hoare (fun _ => True) m (fun _ _ => True) (fun oe _ => not_name_error oe).

End Logic.

Section Traces.
Context {F : Type} `{Number F}.
Implicit Types (tr pre mid post : list (event F)) (ev : event F) (w : world F).

(** The world after an event. *)
Definition logged ev w : world F :=
  World (bufs w) (timestamp_offset w) (local_clock_time w) (old_time w)
        (script w) (trace w ++ [ev]).

(** The most recent [perf_counter()] reading of a trace. *)
Fixpoint last_perf tr : option F :=
  match tr with
  | [] => None
  | ev :: tr' =>
      match last_perf tr' with
      | Some t => Some t
      | None => match ev with PerfCounter t => Some t | _ => None end
      end
  end.

(** All [perf_counter()] readings of a trace, in order. *)
Definition readings tr : list F :=
  omap (fun ev => match ev with PerfCounter t => Some t | _ => None end) tr.

(** After [pre] the events [mid] contain a reading that is not less than
    [dt] away from the last reading of [pre]. *)
Definition waited (dt : F) pre mid : Prop :=
  exists s r, last_perf pre = Some s /\ In (PerfCounter r) mid
              /\ ltb (sub r s) dt = false.

Definition is_poll ev : Prop := exists n, ev = Polled n.
Definition is_poll_or_append ev : Prop := ev = Appended \/ is_poll ev.
Definition quiet ev : Prop :=
  match ev with LocalClock _ | TimeCorrection _ => True | _ => False end.

(** Every buffer update that is followed by an event in [stop] is followed by
    a wait first. *)
Definition guarded (dt : F) (stop : event F -> Prop) tr : Prop :=
  forall pre mid ev post,
    tr = pre ++ Appended :: mid ++ ev :: post -> stop ev -> waited dt pre mid.

(** Every buffer update of the trace has been followed by a wait. *)
Definition ready (dt : F) tr : Prop :=
  forall pre mid, tr = pre ++ Appended :: mid -> waited dt pre mid.

(** The last buffer update is still waiting. *)
Definition pending (dt : F) tr (o : option F) : Prop :=
  exists tr0 m, tr = tr0 ++ Appended :: m /\ ready dt tr0
                /\ last_perf tr0 = o /\ ~ In Appended m.

(** Assertions on the world of [main], for an interval [dt] and the
    [perf_counter] script [ps0] the run started with. *)
Definition base (dt : F) (ps0 : list F) w : Prop :=
  guarded dt is_poll_or_append (trace w)
  /\ readings (trace w) ++ perf_counter (script w) = ps0.
Definition at_boundary (dt : F) (ps0 : list F) w : Prop :=
  base dt ps0 w /\ ready dt (trace w) /\ old_time w = last_perf (trace w).
Definition waiting (dt : F) (ps0 : list F) w : Prop :=
  base dt ps0 w /\ pending dt (trace w) (old_time w).
Definition released (dt : F) (ps0 : list F) w : Prop :=
  base dt ps0 w /\ ready dt (trace w).
Definition stopped (dt : F) (ps0 : list F) (_ : option exn) w : Prop :=
  base dt ps0 w.

(** [old_time] has been assigned. *)
Definition bound w : Prop := is_Some (old_time w).
Definition no_name_error (oe : option exn) w : Prop := not_name_error oe.

End Traces.

(** ** Sequences of appends *)

Section Windows.
Context {F : Type}.

(** The last [b] elements of a list. *)
Definition window {A} (b : nat) (l : list A) : list A :=
  drop (length l - b) l.

(** One call of [getRingbufferValues]: chunk, timestamps, local time and
    offset. *)
Definition append_call : Type := list (list F) * list F * F * F.

Definition chunk_of (call : append_call) : list (list F) := call.1.1.1.
Definition records_of (call : append_call) : list (list F) :=
  let '(_, timestamps, clt, off) := call in
  map (fun t => [t; clt; off]) timestamps.

(** A chunk as the docstring wants it for buffers of [b] rows and [c]
    channels. *)
Definition valid_chunk (b c : nat) (chunk : list (list F))
    (timestamps : list F) : Prop :=
  0 < length chunk <= b
  /\ Forall (fun r => length r = c) chunk
  /\ length timestamps = length chunk.

Definition valid_call (b c : nat) (call : append_call) : Prop :=
  valid_chunk b c call.1.1.1 call.1.1.2.

(** The calls one after the other, on the same two arrays. *)
Fixpoint appends (calls : list append_call) : M (buffers F) unit :=
  match calls with
  | [] => ret tt
  | (chunk, timestamps, clt, off) :: rest =>
      do getRingbufferValues chunk timestamps clt off ;; appends rest
  end.

(** What [pull_chunk] may return without making the append fail: nothing,
    or a valid chunk. *)
Definition acceptable (b c : nat) (polled : list (list F) * list F) : Prop :=
  polled.1 = [] \/ valid_chunk b c polled.1 polled.2.

End Windows.
Arguments append_call : clear implicits.

(** ** Assertions on the buffers of [main] *)

Section MainAssertions.
Context {F : Type} `{Number F}.
Implicit Types (w : world F).

(** Both buffers of [main] have the shape they were allocated with. *)
Definition shaped (b c : nat) w : Prop :=
  wf b c (data_buffer (bufs w)) /\ wf b 3 (timestamp_buffer (bufs w)).

(** The same, where a run stops, whatever stops it. *)
Definition shaped_stop (b c : nat) (_ : option exn) w : Prop := shaped b c w.

(** No condition on how a run stops. *)
Definition anything (_ : option exn) w : Prop := True.

(** The data buffer is the window over the chunks polled so far, [polls0]
    being the stream the run started with. *)
Definition windowed (b c : nat) (polls0 : list (list (list F) * list F)) w
    : Prop :=
  shaped b c w
  /\ Forall (acceptable b c) (pull_chunk (script w))
  /\ exists consumed,
       polls0 = consumed ++ pull_chunk (script w)
       /\ rows (data_buffer (bufs w))
          = window b (replicate b (replicate c zero)
                      ++ concat (map fst consumed)).

(** The same, between the poll that returned [chunk] and its append. *)
Definition windowed_before (b c : nat) (polls0 : list (list (list F) * list F))
    (chunk : list (list F)) (timestamps : list F) w : Prop :=
  shaped b c w
  /\ Forall (acceptable b c) (pull_chunk (script w))
  /\ valid_chunk b c chunk timestamps
  /\ exists consumed,
       polls0 = consumed ++ (chunk, timestamps) :: pull_chunk (script w)
       /\ rows (data_buffer (bufs w))
          = window b (replicate b (replicate c zero)
                      ++ concat (map fst consumed)).

End MainAssertions.

(** * Properties *)

(** ** The report *)

Section ReportFacts.
Context {F : Type} `{Number F}.

Lemma sendDetectedError_row team_name secret_id (v0 v1 v2 t : F) :
  sendDetectedError team_name secret_id [v0; v1; v2] t =
  inr (Post url (Report team_name secret_id v0 (sub t v1) (sub (sub v1 v0) v2))).
Proof. reflexivity. Qed.

End ReportFacts.

(** C8. For every row [(source_timestamp, local_receipt_time, clock_offset)]
    of the timestamp buffer and every detection clock reading,
    [sendDetectedError] posts one report whose [comm_delay] is
    [local_receipt_time - source_timestamp - clock_offset] and whose
    [comp_time] is [detection_local_time - local_receipt_time]; in binary64,
    for the row [(10.0, 10.5, 0.05)] the communication delay is [0.45]. *)
Theorem sendDetectedError_timings :
  (forall (F : Type) (N : Number F) (team_name secret_id : string)
          (source_timestamp local_receipt_time clock_offset detection_local_time : F),
      exists r,
        sendDetectedError team_name secret_id
          [source_timestamp; local_receipt_time; clock_offset]
          detection_local_time = inr (Post url r)
        /\ team r = team_name /\ secret r = secret_id
        /\ host_timestamp r = source_timestamp
        /\ comm_delay r = sub (sub local_receipt_time source_timestamp) clock_offset
        /\ comp_time r = sub detection_local_time local_receipt_time)
  /\ (forall (team_name secret_id : string) (detection_local_time : float),
        exists r,
          sendDetectedError team_name secret_id [10.0; 10.5; 0.05]%float
            detection_local_time = inr (Post url r)
          /\ comm_delay r = 0.45%float).
Proof.
  split.
  - intros. eexists. rewrite sendDetectedError_row. repeat split.
  - intros. eexists. rewrite sendDetectedError_row. split; reflexivity.
Qed.

Section RingFacts.
Context {F : Type}.
Implicit Types (a d : matrix F) (chunk : list (list F)) (r : list F).

Lemma np_array2_rect chunk w :
  chunk <> [] -> Forall (fun r => length r = w) chunk ->
  np_array2 chunk = inr (Mat (Matrix w chunk)).
Proof.
  destruct chunk as [|r rs]; [done|]. intros _ Hw.
  apply Forall_cons in Hw as [<- Hrs]. simpl.
  replace (forallb _ rs) with true; [done|].
  symmetry. apply forallb_forall. intros r' Hr'.
  rewrite Forall_forall in Hrs. apply Nat.eqb_eq, Hrs. by apply list_elem_of_In.
Qed.

Lemma np_array2_inv chunk cc :
  np_array2 chunk = inr cc ->
  (chunk = [] /\ cc = Vec []) \/
  (exists w, chunk <> [] /\ Forall (fun r => length r = w) chunk
             /\ cc = Mat (Matrix w chunk)).
Proof.
  destruct chunk as [|r rs]; simpl.
  - intros [= <-]. by left.
  - destruct (forallb _ rs) eqn:E; [|done]. intros [= <-]. right.
    exists (length r). split; [done|]. split; [|done].
    constructor; [done|]. apply Forall_forall. intros r' Hr'.
    rewrite forallb_forall in E. apply Nat.eqb_eq, E. by apply list_elem_of_In.
Qed.

Lemma np_array2_error chunk e : np_array2 chunk = inl e -> e = ValueError.
Proof.
  destruct chunk as [|r rs]; simpl; [done|].
  destruct (forallb _ rs); [done|]. by intros [= <-].
Qed.

Lemma broadcast1_same c r : length r = c -> broadcast1 c (Vec r) = Some r.
Proof. intros <-. simpl. by rewrite Nat.eqb_refl. Qed.

Lemma mapM_broadcast1_same c (rs : list (list F)) :
  Forall (fun r => length r = c) rs ->
  mapM (fun r => broadcast1 c (Vec r)) rs = Some rs.
Proof.
  intros Hrs. apply mapM_Some. induction Hrs; constructor; auto using broadcast1_same.
Qed.

Lemma broadcast2_same m c (rs : list (list F)) :
  length rs = m -> Forall (fun r => length r = c) rs ->
  broadcast2 m c (Mat (Matrix c rs)) = Some rs.
Proof.
  intros <- Hrs. unfold broadcast2. cbn [ncols rows].
  rewrite !Nat.eqb_refl. cbn [orb andb].
  rewrite mapM_broadcast1_same by done. done.
Qed.

Lemma setitem_rows_shift n b c a :
  wf b c a ->
  setitem_rows 0 (Some (length (rows (rows_from n a)))) (Mat (rows_from n a)) a
  = inr (Matrix c (drop n (rows a) ++ drop (b - n) (rows a))).
Proof.
  intros (Hc & Hb & Hw). unfold setitem_rows, slice_bounds, rows_from.
  cbn [rows ncols]. rewrite length_drop, Hb, Hc.
  replace (0 `min` b) with 0 by lia.
  replace ((b - n) `min` b - 0) with (b - n) by lia.
  rewrite broadcast2_same; [done| |].
  - rewrite length_drop. lia.
  - by apply Forall_drop.
Qed.

Lemma setitem_rows_tail k b c src a :
  ncols a = c -> length (rows a) = b -> k <= b ->
  setitem_rows k None src a =
  match broadcast2 (b - k) c src with
  | None => inl ValueError
  | Some new => inr (Matrix c (take k (rows a) ++ new))
  end.
Proof.
  intros Hc Hb Hk. unfold setitem_rows, slice_bounds. rewrite Hb, Hc.
  replace (k `min` b) with k by lia.
  destruct (broadcast2 _ _ _); [|done].
  rewrite drop_ge by lia. by rewrite app_nil_r.
Qed.

Lemma broadcast1_length m src (vals : list F) :
  broadcast1 m src = Some vals -> length vals = m.
Proof.
  assert (Hl : forall xs : list F,
    (if length xs =? m then Some xs
     else match xs with [x] => Some (replicate m x) | _ => None end) = Some vals ->
    length vals = m).
  { intros xs. destruct (Nat.eqb_spec (length xs) m).
    - by intros [= <-].
    - destruct xs as [|x [|]]; try done. intros [= <-]. apply length_replicate. }
  destruct src as [x|xs|a]; simpl.
  - intros [= <-]. apply length_replicate.
  - apply Hl.
  - destruct (rows a) as [|r [|]]; try done. apply Hl.
Qed.

Lemma mapM_lookup_column j (rs : list (list F)) :
  Forall (fun r => j < length r) rs ->
  mapM (fun r => r !! j) rs = Some (column j rs).
Proof.
  intros Hrs. apply mapM_Some. unfold column.
  induction Hrs as [|r rs Hr _ IH]; simpl; [constructor|].
  destruct (lookup_lt_is_Some_2 r j Hr) as [v Hv]. rewrite Hv. simpl.
  by constructor.
Qed.

Lemma length_column j (rs : list (list F)) :
  Forall (fun r => j < length r) rs -> length (column j rs) = length rs.
Proof.
  intros Hrs. apply mapM_lookup_column, mapM_Some_1, Forall2_length in Hrs.
  done.
Qed.

Lemma wf_lt b c a j : wf b c a -> j < c -> Forall (fun r => j < length r) (rows a).
Proof.
  intros (_ & _ & Hw) Hj. eapply Forall_impl; [exact Hw|]. simpl. intros r ->. done.
Qed.

Lemma col_from_wf n j b c a :
  wf b c a -> j < c -> col_from n j a = inr (column j (drop n (rows a))).
Proof.
  intros Ha Hj. unfold col_from. destruct Ha as (Hc & Hb & Hw).
  rewrite Hc. destruct (Nat.ltb_spec j c); [|lia].
  rewrite mapM_lookup_column; [done|].
  apply Forall_drop. eapply Forall_impl; [exact Hw|]. simpl. intros r ->. done.
Qed.

Lemma setitem_col_head k j b c temp a :
  wf b c a -> j < c -> length temp = k -> k <= b ->
  setitem_col 0 (Some k) j (Vec temp) a
  = inr (Matrix c (put_col j (take k (rows a)) temp ++ drop k (rows a))).
Proof.
  intros (Hc & Hb & Hw) Hj Ht Hk. unfold setitem_col, slice_bounds.
  rewrite Hc, Hb. destruct (Nat.ltb_spec j c); [|lia].
  replace (0 `min` b) with 0 by lia.
  replace (k `min` b - 0) with k by lia.
  rewrite broadcast1_same by done. reflexivity.
Qed.

Lemma setitem_col_tail k j b c src a :
  ncols a = c -> length (rows a) = b -> j < c -> k <= b ->
  setitem_col k None j src a =
  match broadcast1 (b - k) src with
  | None => inl ValueError
  | Some vals => inr (Matrix c (take k (rows a) ++ put_col j (drop k (rows a)) vals))
  end.
Proof.
  intros Hc Hb Hj Hk. unfold setitem_col, slice_bounds.
  rewrite Hc, Hb. destruct (Nat.ltb_spec j c); [|lia].
  replace (k `min` b) with k by lia.
  destruct (broadcast1 _ _) as [vals|]; [|done].
  rewrite (drop_ge _ (k + (b - k))) by lia.
  rewrite app_nil_r.
  rewrite (take_ge (drop k (rows a))) by (rewrite length_drop; lia).
  reflexivity.
Qed.

Lemma shift_column_run n j new b c d tsb :
  wf b c tsb -> j < c ->
  shift_column n j new (Buffers d tsb) =
  match broadcast1 (b - (b - n)) new with
  | None =>
      Raise ValueError
        (Buffers d (Matrix c (put_col j (take (b - n) (rows tsb))
                                       (column j (drop n (rows tsb)))
                              ++ drop (b - n) (rows tsb))))
  | Some vals =>
      Ret tt (Buffers d (Matrix c (put_col j (rows tsb)
                                     (column j (drop n (rows tsb)) ++ vals))))
  end.
Proof.
  intros Hwf Hj. pose proof Hwf as (Hc & Hb & Hw).
  assert (Hlen : length (column j (drop n (rows tsb))) = b - n).
  { rewrite length_column, length_drop; [lia|].
    apply Forall_drop. by eapply wf_lt. }
  unfold shift_column, bind, assign_time. cbn [timestamp_buffer data_buffer].
  rewrite (col_from_wf _ _ _ _ _ Hwf Hj). cbn [lift ret].
  rewrite Hlen. cbn [timestamp_buffer data_buffer].
  rewrite (setitem_col_head (b - n) j b c) by (done || lia).
  cbn [timestamp_buffer data_buffer].
  rewrite (setitem_col_tail (b - n) j b c); cbn [ncols rows]; try done; try lia.
  2:{ rewrite length_app, length_drop, Hb. unfold put_col.
      rewrite length_zip_with, length_take. lia. }
  destruct (broadcast1 _ new) as [vals|] eqn:E; [|done].
  assert (Hk : length (put_col j (take (b - n) (rows tsb))
                         (column j (drop n (rows tsb)))) = b - n).
  { unfold put_col. rewrite length_zip_with, length_take. lia. }
  rewrite take_app_length', drop_app_length' by done.
  do 3 f_equal. unfold put_col.
  rewrite <- zip_with_app by (rewrite length_take; lia).
  by rewrite take_drop.
Qed.

Lemma put_col_width j c (rs : list (list F)) vals :
  Forall (fun r => length r = c) rs ->
  Forall (fun r => length r = c) (put_col j rs vals).
Proof.
  intros Hrs. revert vals. induction Hrs as [|r rs Hr _ IH]; intros [|v vals];
    simpl; constructor; auto. by rewrite length_insert.
Qed.

Lemma length_put_col j (rs : list (list F)) vals :
  length vals = length rs -> length (put_col j rs vals) = length rs.
Proof. intros Hl. unfold put_col. rewrite length_zip_with. lia. Qed.

Lemma column_put_col_ne j j' (rs : list (list F)) vals :
  j <> j' -> length rs <= length vals ->
  column j' (put_col j rs vals) = column j' rs.
Proof.
  intros Hne. unfold column, put_col. revert vals.
  induction rs as [|r rs IH]; intros [|v vals] Hl;
    simpl in *; try done; try lia.
  rewrite list_lookup_insert_ne by done.
  rewrite IH by lia. done.
Qed.

Lemma column_drop_put_col_ne j j' n (rs : list (list F)) vals :
  j <> j' -> length rs <= length vals ->
  column j' (drop n (put_col j rs vals)) = column j' (drop n rs).
Proof.
  intros Hne Hl. unfold put_col. rewrite zip_with_drop.
  apply column_put_col_ne; [done|]. rewrite !length_drop. lia.
Qed.

Lemma overwrite3 (rs rs' : list (list F)) :
  Forall (fun r => length r = 3) rs -> Forall (fun r => length r = 3) rs' ->
  length rs = length rs' ->
  put_col 2 (put_col 1 (put_col 0 rs (column 0 rs')) (column 1 rs')) (column 2 rs')
  = rs'.
Proof.
  intros Hrs. revert rs'. induction Hrs as [|r rs Hr _ IH]; intros rs' Hrs' Hl.
  - by destruct rs'.
  - destruct Hrs' as [|r' rs' Hr' Hrs']; [done|].
    destruct r as [|x0 [|x1 [|x2 [|]]]]; try done.
    destruct r' as [|y0 [|y1 [|y2 [|]]]]; try done.
    simpl. f_equal. apply IH; [done|]. simpl in Hl. lia.
Qed.

Lemma fresh3 (rs : list (list F)) tv x y :
  Forall (fun r => length r = 3) rs -> length rs = length tv ->
  put_col 2 (put_col 1 (put_col 0 rs tv) (replicate (length tv) x))
            (replicate (length tv) y)
  = map (fun t => [t; x; y]) tv.
Proof.
  intros Hrs. revert tv. induction Hrs as [|r rs Hr _ IH]; intros [|t tv] Hl;
    try done.
  destruct r as [|x0 [|x1 [|x2 [|]]]]; try done.
  simpl. f_equal. apply IH. simpl in Hl. lia.
Qed.

Lemma put3_app (rs1 rs2 : list (list F)) x1 x2 y1 y2 z1 z2 :
  length x1 = length rs1 -> length y1 = length rs1 -> length z1 = length rs1 ->
  put_col 2 (put_col 1 (put_col 0 (rs1 ++ rs2) (x1 ++ x2)) (y1 ++ y2)) (z1 ++ z2)
  = put_col 2 (put_col 1 (put_col 0 rs1 x1) y1) z1
    ++ put_col 2 (put_col 1 (put_col 0 rs2 x2) y2) z2.
Proof.
  intros Hx Hy Hz. unfold put_col.
  rewrite (zip_with_app _ rs1 rs2 x1 x2) by done.
  rewrite (zip_with_app _ _ _ y1 y2) by (rewrite length_zip_with; lia).
  rewrite (zip_with_app _ _ _ z1 z2) by (rewrite !length_zip_with; lia).
  done.
Qed.

Lemma data_rows_written n b k (rs new : list (list F)) :
  length rs = b -> k = b - n ->
  take k (drop n rs ++ drop k rs) ++ new = drop n rs ++ new.
Proof.
  intros Hb ->. rewrite take_app_length'; [done|]. rewrite length_drop. lia.
Qed.

(** The function, executed symbolically on well-shaped buffers. *)
Lemma getRingbufferValues_run b c d tsb chunk cc n timestamps clt off :
  wf b c d -> wf b 3 tsb ->
  np_array2 chunk = inr cc -> shape0 cc = inr n ->
  getRingbufferValues chunk timestamps clt off (Buffers d tsb) =
  match broadcast2 (b - (b - n)) c cc with
  | None =>
      Raise ValueError
        (Buffers (Matrix c (drop n (rows d) ++ drop (b - n) (rows d))) tsb)
  | Some new =>
      let d' := Matrix c (drop n (rows d) ++ new) in
      match broadcast1 (b - (b - n)) (Vec timestamps) with
      | None =>
          Raise ValueError
            (Buffers d'
               (Matrix 3 (put_col 0 (take (b - n) (rows tsb))
                                    (column 0 (drop n (rows tsb)))
                          ++ drop (b - n) (rows tsb))))
      | Some tv =>
          Ret tt
            (Buffers d'
               (Matrix 3 (drop n (rows tsb) ++ map (fun t => [t; clt; off]) tv)))
      end
  end.
Proof.
  intros Hd Ht Hcc Hn. pose proof Hd as (Hdc & Hdb & Hdw).
  pose proof Ht as (Htc & Htb & Htw).
  unfold getRingbufferValues. unfold bind at 1. rewrite Hcc. cbn [lift ret].
  unfold bind at 1. rewrite Hn. cbn [lift ret].
  unfold bind at 1. cbn [gets data_buffer].
  unfold bind at 1. unfold assign_data at 1. cbn [data_buffer timestamp_buffer].
  rewrite (setitem_rows_shift n b c d Hd).
  unfold bind at 1. unfold assign_data at 1. cbn [data_buffer timestamp_buffer].
  cbn [rows_from rows]. rewrite length_drop, Hdb.
  rewrite (setitem_rows_tail (b - n) b c); cbn [ncols rows]; try done; try lia.
  2:{ rewrite length_app, !length_drop. lia. }
  destruct (broadcast2 _ c cc) as [new|]; [|done].
  rewrite (data_rows_written n b) by done.
  unfold np_array1. unfold bind at 1.
  rewrite (shift_column_run n 0 _ b 3) by (done || lia).
  destruct (broadcast1 _ (Vec timestamps)) as [tv|] eqn:Etv; [|done].
  apply broadcast1_length in Etv.
  assert (Hcol : forall j, j < 3 -> length (column j (drop n (rows tsb))) = b - n).
  { intros j Hj. rewrite length_column, length_drop; [lia|].
    apply Forall_drop. by eapply wf_lt. }
  set (R0 := put_col 0 (rows tsb) (column 0 (drop n (rows tsb)) ++ tv)).
  assert (HR0 : wf b 3 (Matrix 3 R0)).
  { repeat split; cbn [ncols rows]; subst R0.
    - rewrite length_put_col; [done|]. rewrite length_app, Hcol by lia. lia.
    - by apply put_col_width. }
  unfold bind at 1.
  rewrite (shift_column_run n 1 _ b 3 _ _ HR0) by lia. cbn [broadcast1 rows].
  set (R1 := put_col 1 R0 _).
  assert (HR1 : wf b 3 (Matrix 3 R1)).
  { destruct HR0 as (_ & HR0b & HR0w). cbn [rows] in *.
    repeat split; cbn [ncols rows]; subst R1.
    - rewrite length_put_col; [done|].
      rewrite length_app, length_replicate, length_column, length_drop; [lia|].
      apply Forall_drop. eapply Forall_impl; [exact HR0w|]. simpl. intros r ->. lia.
    - by apply put_col_width. }
  rewrite (shift_column_run n 2 _ b 3 _ _ HR1) by lia. cbn [broadcast1 rows].
  do 3 f_equal.
  (* the columns read back are those of the original rows *)
  assert (E1 : column 1 (drop n R0) = column 1 (drop n (rows tsb))).
  { subst R0. apply column_drop_put_col_ne; [done|].
    rewrite length_app, Hcol by lia. lia. }
  assert (E2 : column 2 (drop n R1) = column 2 (drop n (rows tsb))).
  { subst R1. rewrite column_drop_put_col_ne; [|done|].
    - subst R0. apply column_drop_put_col_ne; [done|].
      rewrite length_app, Hcol by lia. lia.
    - rewrite E1, length_app, Hcol, length_replicate by lia.
      destruct HR0 as (_ & HR0b & _). cbn [rows] in HR0b. lia. }
  subst R1. rewrite E2, E1. subst R0.
  rewrite <- (take_drop (b - n) (rows tsb)) at 1.
  rewrite put3_app by (rewrite Hcol, length_take; lia).
  rewrite overwrite3.
  - f_equal. rewrite <- Etv at 1 2. apply fresh3.
    + by apply Forall_drop.
    + rewrite length_drop. lia.
  - by apply Forall_take.
  - by apply Forall_drop.
  - rewrite length_take, length_drop. lia.
Qed.

Lemma shape0_mat w chunk : shape0 (Mat (Matrix w chunk)) = inr (length chunk).
Proof. reflexivity. Qed.

Lemma matrix_eta c a : ncols a = c -> Matrix c (rows a) = a.
Proof. intros <-. by destruct a. Qed.

(** A chunk of the right width: the data buffer is shifted and the chunk
    written, whatever the timestamps are. *)
Lemma getRingbufferValues_data b c n d tsb chunk timestamps clt off :
  wf b c d -> wf b 3 tsb ->
  length chunk = n -> Forall (fun r => length r = c) chunk -> 0 < n <= b ->
  data_buffer (final_store
    (getRingbufferValues chunk timestamps clt off (Buffers d tsb)))
  = Matrix c (drop n (rows d) ++ chunk).
Proof.
  intros Hd Ht Hn Hw Hnb.
  assert (Hne : chunk <> []) by (intros ->; simpl in Hn; lia).
  rewrite (getRingbufferValues_run b c d tsb chunk _ n timestamps clt off Hd Ht
             (np_array2_rect chunk c Hne Hw)) by (by rewrite shape0_mat, Hn).
  replace (b - (b - n)) with n by lia.
  rewrite broadcast2_same by done. cbn zeta.
  by destruct (broadcast1 n (Vec timestamps)).
Qed.

(** A valid chunk: the call returns, with both buffers shifted by [n] rows
    and the [n] new rows at the end. *)
Lemma getRingbufferValues_valid b c n d tsb chunk timestamps clt off :
  wf b c d -> wf b 3 tsb ->
  length chunk = n -> Forall (fun r => length r = c) chunk ->
  length timestamps = n -> 0 < n <= b ->
  getRingbufferValues chunk timestamps clt off (Buffers d tsb)
  = Ret tt (Buffers (Matrix c (drop n (rows d) ++ chunk))
              (Matrix 3 (drop n (rows tsb)
                         ++ map (fun t => [t; clt; off]) timestamps))).
Proof.
  intros Hd Ht Hn Hw Hts Hnb.
  assert (Hne : chunk <> []) by (intros ->; simpl in Hn; lia).
  rewrite (getRingbufferValues_run b c d tsb chunk _ n timestamps clt off Hd Ht
             (np_array2_rect chunk c Hne Hw)) by (by rewrite shape0_mat, Hn).
  replace (b - (b - n)) with n by lia.
  rewrite broadcast2_same by done. cbn zeta.
  by rewrite broadcast1_same.
Qed.

End RingFacts.

(** C1. For every data buffer of [b] rows and every chunk of [n] sample rows
    (each as wide as the buffer) with [0 < n <= b], after
    [getRingbufferValues] the last [n] rows of the data buffer are the
    chunk's samples in order and the first [b - n] rows are the rows
    [n .. b) the buffer had before the call; this holds for the store the
    call leaves behind whatever the timestamps are, and the call returns
    normally when there are [n] timestamps. *)
Theorem data_buffer_shift_append {F : Type} (b c n : nat) (d tsb : matrix F)
    (chunk : list (list F)) (timestamps : list F) (clt off : F) :
  wf b c d -> wf b 3 tsb ->
  length chunk = n -> Forall (fun r => length r = c) chunk -> 0 < n <= b ->
  let out := getRingbufferValues chunk timestamps clt off (Buffers d tsb) in
  let rows' := rows (data_buffer (final_store out)) in
  length rows' = b
  /\ drop (b - n) rows' = chunk
  /\ take (b - n) rows' = drop n (rows d)
  /\ (length timestamps = n -> exists s', out = Ret tt s').
Proof.
  intros Hd Ht Hn Hw Hnb out rows'. subst out rows'.
  rewrite (getRingbufferValues_data b c n) by done. cbn [rows].
  pose proof Hd as (_ & Hb & _).
  assert (Hl : length (drop n (rows d)) = b - n) by (rewrite length_drop; lia).
  repeat split.
  - rewrite length_app, Hl. lia.
  - by rewrite drop_app_length'.
  - by rewrite take_app_length'.
  - intros Hts. eexists. by apply (getRingbufferValues_valid b c n).
Qed.

(** C2. For every append with [0 < n <= b] (a chunk of [n] rows of the
    buffer's width with [n] timestamps), row [i] of both buffers is the former
    row [i + n] when [i < b - n], and otherwise comes from the chunk: the data
    row is sample [i - (b - n)], and the time record is that sample's
    timestamp followed by the [current_local_time] and [timestamp_offset] of
    this call.  All three time columns move with the index mapping of the
    data buffer. *)
Theorem time_record_alignment {F : Type} (b c n : nat) (d tsb : matrix F)
    (chunk : list (list F)) (timestamps : list F) (clt off : F) :
  wf b c d -> wf b 3 tsb ->
  length chunk = n -> Forall (fun r => length r = c) chunk ->
  length timestamps = n -> 0 < n <= b ->
  exists s',
    getRingbufferValues chunk timestamps clt off (Buffers d tsb) = Ret tt s'
    /\ wf b c (data_buffer s') /\ wf b 3 (timestamp_buffer s')
    /\ forall i, i < b ->
         (i < b - n ->
            rows (data_buffer s') !! i = rows d !! (i + n)
            /\ rows (timestamp_buffer s') !! i = rows tsb !! (i + n))
         /\ (b - n <= i ->
            rows (data_buffer s') !! i = chunk !! (i - (b - n))
            /\ exists t, timestamps !! (i - (b - n)) = Some t
                 /\ rows (timestamp_buffer s') !! i = Some [t; clt; off]).
Proof.
  intros Hd Ht Hn Hw Hts Hnb. eexists. split.
  { by apply (getRingbufferValues_valid b c n). }
  cbn [data_buffer timestamp_buffer rows].
  pose proof Hd as (Hdc & Hdb & Hdw). pose proof Ht as (Htc & Htb & Htw).
  assert (Hld : length (drop n (rows d)) = b - n) by (rewrite length_drop; lia).
  assert (Hlt : length (drop n (rows tsb)) = b - n) by (rewrite length_drop; lia).
  split; [|split].
  - repeat split; cbn [ncols rows].
    + rewrite length_app, Hld. lia.
    + apply Forall_app. split; [by apply Forall_drop|done].
  - repeat split; cbn [ncols rows].
    + rewrite length_app, Hlt, length_map. lia.
    + apply Forall_app. split; [by apply Forall_drop|].
      apply Forall_map. by apply Forall_true.
  - intros i Hi. split.
    + intros Hlo. rewrite !lookup_app_l by lia. rewrite !lookup_drop.
      by rewrite (Nat.add_comm n i).
    + intros Hhi. rewrite !lookup_app_r by lia. rewrite Hld, Hlt. split; [done|].
      destruct (lookup_lt_is_Some_2 timestamps (i - (b - n))) as [t Et]; [lia|].
      exists t. split; [done|]. by rewrite list_lookup_fmap, Et.
Qed.

(** C3. Scenario: [buffer_size = 4], one channel, data buffer all zeros.
    Appending the chunk [[5], [6]] with [current_local_time = 1.0] and
    [timestamp_offset = 0.1] gives the data buffer [0, 0, 5, 6], and rows 2
    and 3 of the timestamp buffer are [(t, 1.0, 0.1)] for the two source
    timestamps [t]; rows 0 and 1 are the former rows 2 and 3. *)
Theorem scenario_append_two_samples :
  forall t0 t1 r00 r01 r02 r10 r11 r12 r20 r21 r22 r30 r31 r32 : float,
    getRingbufferValues [[5]; [6]]%float [t0; t1] 1.0%float 0.1%float
      (Buffers (np_zeros 4 1)
         (Matrix 3 [[r00; r01; r02]; [r10; r11; r12];
                    [r20; r21; r22]; [r30; r31; r32]]))
    = Ret tt
        (Buffers (Matrix 1 [[0]; [0]; [5]; [6]]%float)
           (Matrix 3 [[r20; r21; r22]; [r30; r31; r32];
                      [t0; 1.0; 0.1]; [t1; 1.0; 0.1]]%float)).
Proof. intros. reflexivity. Qed.

(** C6. A zero-length chunk is rejected: on a buffer with at least one
    channel, [getRingbufferValues] on the empty chunk raises [ValueError]
    (the empty array has shape [(0,)], which does not fit the [(0, c)] target
    of the chunk assignment) and leaves both buffers as they were. *)
Theorem empty_chunk_rejected {F : Type} (b c : nat) (d tsb : matrix F)
    (timestamps : list F) (clt off : F) :
  wf b c d -> wf b 3 tsb -> 0 < c ->
  getRingbufferValues [] timestamps clt off (Buffers d tsb)
  = Raise ValueError (Buffers d tsb).
Proof.
  intros Hd Ht Hc.
  rewrite (getRingbufferValues_run b c d tsb [] (Vec []) 0 timestamps clt off)
    by done.
  replace (b - (b - 0)) with 0 by lia. cbn [broadcast2 broadcast1 length].
  destruct (Nat.eqb_spec 0 c); [lia|]. cbn [mbind option_bind].
  destruct Hd as (Hdc & Hdb & _).
  rewrite drop_0, Nat.sub_0_r, drop_ge, app_nil_r by lia.
  by rewrite matrix_eta.
Qed.

(** C7. Boundary.  When [n = buffer_size] the whole content of both buffers
    is replaced by the chunk; when [n > buffer_size] the call raises
    [ValueError] and both buffers are left exactly as they were (nothing is
    written out of bounds, no length changes). *)
Theorem boundary_chunk_lengths {F : Type} (b c : nat) (d tsb : matrix F)
    (chunk : list (list F)) (timestamps : list F) (clt off : F) :
  wf b c d -> wf b 3 tsb -> 0 < b ->
  (length chunk = b -> Forall (fun r => length r = c) chunk ->
   length timestamps = b ->
   getRingbufferValues chunk timestamps clt off (Buffers d tsb)
   = Ret tt (Buffers (Matrix c chunk)
               (Matrix 3 (map (fun t => [t; clt; off]) timestamps))))
  /\ (b < length chunk ->
      getRingbufferValues chunk timestamps clt off (Buffers d tsb)
      = Raise ValueError (Buffers d tsb)).
Proof.
  intros Hd Ht Hb. pose proof Hd as (Hdc & Hdb & _).
  pose proof Ht as (Htc & Htb & _). split.
  - intros Hn Hw Hts.
    rewrite (getRingbufferValues_valid b c b) by (done || lia).
    by rewrite !drop_ge by lia.
  - intros Hn. destruct (np_array2 chunk) as [e|cc] eqn:Ecc.
    + apply np_array2_error in Ecc as Ee. subst e.
      unfold getRingbufferValues, bind. by rewrite Ecc.
    + destruct (np_array2_inv _ _ Ecc) as [[-> _]|(w & Hne & Hw & ->)].
      { simpl in Hn. lia. }
      rewrite (getRingbufferValues_run b c d tsb chunk _ (length chunk)
                 timestamps clt off Hd Ht Ecc) by apply shape0_mat.
      replace (b - length chunk) with 0 by lia. rewrite Nat.sub_0_r.
      unfold broadcast2. cbn [rows ncols].
      destruct (Nat.eqb_spec (length chunk) b); [lia|].
      destruct (Nat.eqb_spec (length chunk) 1); [lia|].
      rewrite andb_false_r.
      rewrite drop_ge, drop_0 by lia. cbn [app]. by rewrite matrix_eta.
Qed.

Section Mismatch.
Context {F : Type}.

Lemma broadcast1_mismatch m (xs : list F) :
  length xs <> m -> length xs <> 1 -> broadcast1 m (Vec xs) = None.
Proof.
  intros Hm H1. simpl. destruct (Nat.eqb_spec (length xs) m); [done|].
  by destruct xs as [|x [|]].
Qed.

Lemma broadcast2_width_mismatch m c w (rs : list (list F)) :
  w <> c -> w <> 1 -> broadcast2 m c (Mat (Matrix w rs)) = None.
Proof.
  intros Hc H1. unfold broadcast2. cbn [ncols rows].
  destruct (Nat.eqb_spec w c); [done|]. by destruct (Nat.eqb_spec w 1).
Qed.

Lemma broadcast1_fits m (xs : list F) :
  length xs = m \/ length xs = 1 -> exists vals, broadcast1 m (Vec xs) = Some vals.
Proof.
  intros Hl. simpl. destruct (Nat.eqb_spec (length xs) m); [by eexists|].
  destruct Hl as [?|Hl]; [done|]. destruct xs as [|x [|]]; try done. by eexists.
Qed.

Lemma broadcast2_fits m c w (rs : list (list F)) :
  length rs = m -> Forall (fun r => length r = w) rs -> w = c \/ w = 1 ->
  exists new, broadcast2 m c (Mat (Matrix w rs)) = Some new.
Proof.
  intros Hm Hw Hwc. unfold broadcast2. cbn [ncols rows].
  replace ((w =? c) || (w =? 1)) with true
    by (symmetry; apply orb_true_iff; rewrite !Nat.eqb_eq; done).
  rewrite Hm, Nat.eqb_refl. cbn [orb andb].
  destruct (mapM (fun r => broadcast1 c (Vec r)) rs) as [rs'|] eqn:E.
  - by eexists.
  - exfalso. apply eq_None_not_Some in E. apply E, mapM_is_Some.
    eapply Forall_impl; [exact Hw|]. intros r Hr. simpl in Hr.
    destruct (broadcast1_fits c r) as [vals Hv]; [lia|].
    unfold compose. by rewrite Hv.
Qed.

End Mismatch.

(** C4, as the code has it.  For a chunk of [n] rows ([0 < n <= b]) of one
    common width [w] and [k] timestamps: when [w] is neither the buffer's
    channel count nor 1, or when [k] is neither [n] nor 1,
    [getRingbufferValues] raises [ValueError]; in every other case it
    returns (rows of width 1 and a single timestamp are broadcast). *)
Theorem shape_mismatch_raises {F : Type} (b c n w : nat) (d tsb : matrix F)
    (chunk : list (list F)) (timestamps : list F) (clt off : F) :
  wf b c d -> wf b 3 tsb ->
  length chunk = n -> Forall (fun r => length r = w) chunk -> 0 < n <= b ->
  let out := getRingbufferValues chunk timestamps clt off (Buffers d tsb) in
  let k := length timestamps in
  ((w <> c /\ w <> 1) \/ (k <> n /\ k <> 1) ->
   exists s', out = Raise ValueError s')
  /\ (w = c \/ w = 1 -> k = n \/ k = 1 -> exists s', out = Ret tt s').
Proof.
  intros Hd Ht Hn Hw Hnb out k. subst out k.
  assert (Hne : chunk <> []) by (intros ->; simpl in Hn; lia).
  rewrite (getRingbufferValues_run b c d tsb chunk _ n timestamps clt off Hd Ht
             (np_array2_rect chunk w Hne Hw)) by (by rewrite shape0_mat, Hn).
  replace (b - (b - n)) with n by lia. split.
  - intros Hbad. destruct (broadcast2 n c _) as [new|] eqn:Enew; [|by eexists].
    cbn zeta. destruct Hbad as [[Hc H1]|[Hl H1]].
    + by rewrite broadcast2_width_mismatch in Enew.
    + rewrite broadcast1_mismatch by done. by eexists.
  - intros Hwc Hk.
    destruct (broadcast2_fits n c w chunk Hn Hw Hwc) as [new ->]. cbn zeta.
    destruct (broadcast1_fits n timestamps Hk) as [tv ->]. by eexists.
Qed.

(** C5, as the code has it.  Nothing is validated before the shift.  When
    [getRingbufferValues] fails, the exception is [ValueError] and the store
    is in one of three states: untouched (ragged rows, refused by
    [np.array]); data buffer shifted up by [n] rows with its last rows still
    in place and the timestamp buffer untouched (the chunk did not fit);
    data buffer fully updated and column 0 of the timestamp buffer shifted up
    by [n], its columns 1 and 2 untouched (the timestamps did not fit). *)
Theorem failed_append_state {F : Type} (b c : nat) (d tsb : matrix F)
    (chunk : list (list F)) (timestamps : list F) (clt off : F)
    (e : exn) (s' : buffers F) :
  wf b c d -> wf b 3 tsb ->
  getRingbufferValues chunk timestamps clt off (Buffers d tsb) = Raise e s' ->
  let n := length chunk in
  e = ValueError
  /\ ((np_array2 chunk = inl ValueError /\ s' = Buffers d tsb)
      \/ (exists cc, np_array2 chunk = inr cc
            /\ broadcast2 (b - (b - n)) c cc = None
            /\ s' = Buffers (Matrix c (drop n (rows d) ++ drop (b - n) (rows d)))
                            tsb)
      \/ (exists cc new, np_array2 chunk = inr cc
            /\ broadcast2 (b - (b - n)) c cc = Some new
            /\ broadcast1 (b - (b - n)) (Vec timestamps) = None
            /\ s' = Buffers (Matrix c (drop n (rows d) ++ new))
                      (Matrix 3 (put_col 0 (take (b - n) (rows tsb))
                                           (column 0 (drop n (rows tsb)))
                                 ++ drop (b - n) (rows tsb))))).
Proof.
  intros Hd Ht Hrun n. destruct (np_array2 chunk) as [e'|cc] eqn:Ecc.
  - apply np_array2_error in Ecc as Ee. subst e'.
    unfold getRingbufferValues, bind in Hrun. rewrite Ecc in Hrun.
    cbn [lift raise] in Hrun. injection Hrun as <- <-. split; [done|]. by left.
  - assert (Hn : shape0 cc = inr n).
    { destruct (np_array2_inv _ _ Ecc) as [[-> ->]|(w & _ & _ & ->)]; done. }
    rewrite (getRingbufferValues_run b c d tsb chunk cc n timestamps clt off
               Hd Ht Ecc Hn) in Hrun.
    destruct (broadcast2 _ c cc) as [new|] eqn:Enew.
    + cbn zeta in Hrun.
      destruct (broadcast1 _ (Vec timestamps)) as [tv|] eqn:Etv; [done|].
      injection Hrun as <- <-. split; [done|]. right. right. by exists cc, new.
    + injection Hrun as <- <-. split; [done|]. right. left. by exists cc.
Qed.

(** C4, refuted as stated: a chunk whose rows have width 1 is accepted by a
    two-channel buffer (the sample is copied to every channel), and a single
    timestamp is accepted for a chunk of two samples. *)
Lemma narrow_chunk_is_broadcast :
  getRingbufferValues [[7]]%float [9]%float 1.0%float 0.1%float
    (Buffers (Matrix 2 [[1; 2]; [3; 4]]%float) (np_zeros 2 3))
  = Ret tt (Buffers (Matrix 2 [[3; 4]; [7; 7]]%float)
              (Matrix 3 [[0; 0; 0]; [9; 1.0; 0.1]]%float))
  /\ getRingbufferValues [[5]; [6]]%float [9]%float 1.0%float 0.1%float
       (Buffers (np_zeros 4 1) (np_zeros 4 3))
     = Ret tt (Buffers (Matrix 1 [[0]; [0]; [5]; [6]]%float)
                 (Matrix 3 [[0; 0; 0]; [0; 0; 0];
                            [9; 1.0; 0.1]; [9; 1.0; 0.1]]%float)).
Proof. split; reflexivity. Qed.

(** C5, refuted as stated: a chunk that is too wide fails after the data
    buffer has been shifted, and a chunk with too many timestamps fails after
    the data buffer has been updated and column 0 of the timestamp buffer
    shifted. *)
Lemma failed_append_mutates :
  getRingbufferValues [[7; 8; 9]]%float [1]%float 1.0%float 0.1%float
    (Buffers (Matrix 2 [[1; 2]; [3; 4]]%float) (np_zeros 2 3))
  = Raise ValueError
      (Buffers (Matrix 2 [[3; 4]; [3; 4]]%float) (np_zeros 2 3))
  /\ getRingbufferValues [[5]; [6]]%float [7; 8; 9]%float 1.0%float 0.1%float
       (Buffers (np_zeros 4 1)
          (Matrix 3 [[1; 1; 1]; [2; 2; 2]; [3; 3; 3]; [4; 4; 4]]%float))
     = Raise ValueError
         (Buffers (Matrix 1 [[0]; [0]; [5]; [6]]%float)
            (Matrix 3 [[3; 1; 1]; [4; 2; 2]; [3; 3; 3]; [4; 4; 4]]%float)).
Proof. split; reflexivity. Qed.

(** ** A program logic for the store-passing monad *)

Section Hoare.
Context {S : Type}.

Lemma hoare_ret {A} (P : S -> Prop) (a : A) Q X :
  (forall s, P s -> Q a s) -> hoare P (ret a) Q X.
Proof. intros HQ s Hs. by apply HQ. Qed.

Lemma hoare_bind {A B} (P : S -> Prop) (m : M S A) (k : A -> M S B) Q R X :
  hoare P m Q X -> (forall a, hoare (Q a) (k a) R X) -> hoare P (bind m k) R X.
Proof.
  intros Hm Hk s Hs. specialize (Hm s Hs). unfold bind.
  destruct (m s) as [a s'|e s'|s']; [|done|done]. by apply Hk.
Qed.

Lemma hoare_gets {A} (P : S -> Prop) (f : S -> A) Q X :
  (forall s, P s -> Q (f s) s) -> hoare P (gets f) Q X.
Proof. intros HQ s Hs. by apply HQ. Qed.

Lemma hoare_modify (P : S -> Prop) (f : S -> S) Q X :
  (forall s, P s -> Q tt (f s)) -> hoare P (modify f) Q X.
Proof. intros HQ s Hs. by apply HQ. Qed.

Lemma hoare_pre {A} (P P' : S -> Prop) (m : M S A) Q X :
  (forall s, P s -> P' s) -> hoare P' m Q X -> hoare P m Q X.
Proof. intros HP Hm s Hs. by apply Hm, HP. Qed.

End Hoare.

Section MainRules.
Context {F : Type} `{Number F}.
Implicit Types (w : world F) (P : world F -> Prop).

Lemma hoare_log P ev Q X :
  (forall w, P w -> Q tt (logged ev w)) -> hoare P (log ev) Q X.
Proof. intros HQ. by apply hoare_modify. Qed.

Lemma hoare_load {A} P (var : world F -> option A) Q X :
  (forall w a, P w -> var w = Some a -> Q a w) ->
  (forall w, P w -> var w = None -> X (Some UnboundLocalError) w) ->
  hoare P (load var) Q X.
Proof.
  intros HQ HX w Hw. unfold load. destruct (var w) eqn:E; auto.
Qed.

Lemma hoare_call {A} P (answers : env F -> list A) rest ev Q X :
  (forall w, P w -> answers (script w) = [] -> X None w) ->
  (forall w a more, P w -> answers (script w) = a :: more ->
     Q a (World (bufs w) (timestamp_offset w) (local_clock_time w) (old_time w)
            (rest (script w) more) (trace w ++ [ev a]))) ->
  hoare P (call answers rest ev) Q X.
Proof.
  intros HX HQ w Hw. unfold call, bind, gets, set_script, log, modify, ret.
  destruct (answers (script w)) as [|a more] eqn:E; [by apply HX|].
  simpl. by apply HQ.
Qed.

Lemma hoare_on_buffers {A} P (m : M (buffers F) A) Q X :
  (forall w, P w ->
     let put b := World b (timestamp_offset w) (local_clock_time w)
                    (old_time w) (script w) (trace w) in
     match m (bufs w) with
     | Ret a b => Q a (put b)
     | Raise e b => X (Some e) (put b)
     | Starved b => X None (put b)
     end) ->
  hoare P (on_buffers m) Q X.
Proof.
  intros HQ w Hw. specialize (HQ w Hw). unfold on_buffers.
  by destruct (m (bufs w)).
Qed.

End MainRules.

(** ** Traces of the pacing loop *)

Section TraceFacts.
Context {F : Type} `{Number F}.
Implicit Types (tr pre mid post : list (event F)) (ev : event F).

Lemma last_perf_snoc tr ev :
  last_perf (tr ++ [ev])
  = match ev with PerfCounter t => Some t | _ => last_perf tr end.
Proof.
  induction tr as [|ev' tr IH]; simpl.
  - by destruct ev.
  - rewrite IH. destruct ev; try done.
Qed.

Lemma last_perf_app tr tr' :
  last_perf (tr ++ tr')
  = match last_perf tr' with Some t => Some t | None => last_perf tr end.
Proof.
  induction tr as [|ev tr IH]; simpl.
  - by destruct (last_perf tr').
  - rewrite IH. by destruct (last_perf tr').
Qed.

Lemma readings_snoc tr ev :
  readings (tr ++ [ev])
  = readings tr ++ match ev with PerfCounter t => [t] | _ => [] end.
Proof. unfold readings. rewrite omap_app. by destruct ev. Qed.

Lemma snoc_split {A} (l l1 l2 : list A) (x y : A) :
  l ++ [y] = l1 ++ x :: l2 ->
  (l2 = [] /\ l1 = l /\ x = y)
  \/ (exists l2', l2 = l2' ++ [y] /\ l = l1 ++ x :: l2').
Proof.
  destruct l2 as [|z l2' _] using rev_ind; intros E.
  - apply app_inj_tail in E as [-> ->]. by left.
  - right. exists l2'. rewrite app_comm_cons, app_assoc in E.
    apply app_inj_tail in E as [-> ->]. done.
Qed.

Lemma waited_more dt pre mid mid' :
  waited dt pre mid -> waited dt pre (mid ++ mid').
Proof.
  intros (s & r & Hs & Hr & Hd). exists s, r. repeat split; try done.
  apply in_or_app. by left.
Qed.

Lemma guarded_snoc dt (stop : event F -> Prop) tr ev :
  guarded dt stop tr -> ~ stop ev -> guarded dt stop (tr ++ [ev]).
Proof.
  intros Hg Hev pre mid ev' post E Hstop.
  rewrite app_comm_cons, app_assoc in E.
  apply snoc_split in E as [(_ & _ & ->)|(post' & -> & ->)]; [done|].
  eapply Hg; [|done]. by rewrite <- app_assoc.
Qed.

Lemma guarded_snoc_ready dt (stop : event F -> Prop) tr ev :
  guarded dt stop tr -> ready dt tr -> guarded dt stop (tr ++ [ev]).
Proof.
  intros Hg Hr pre mid ev' post E Hstop.
  rewrite app_comm_cons, app_assoc in E.
  apply snoc_split in E as [(_ & <- & _)|(post' & -> & ->)].
  - by apply Hr.
  - eapply Hg; [|done]. by rewrite <- app_assoc.
Qed.

Lemma ready_snoc dt tr ev :
  ready dt tr -> ev <> Appended -> ready dt (tr ++ [ev]).
Proof.
  intros Hr Hev pre mid E.
  apply snoc_split in E as [(_ & _ & <-)|(mid' & -> & ->)]; [done|].
  apply waited_more. by apply Hr.
Qed.

Lemma ready_nil dt : ready dt [].
Proof. intros pre mid E. by destruct pre. Qed.

Lemma guarded_nil dt stop : guarded dt stop [].
Proof. intros pre mid ev post E. by destruct pre. Qed.

Lemma pending_intro dt tr : ready dt tr -> pending dt (tr ++ [Appended]) (last_perf tr).
Proof. intros Hr. exists tr, []. repeat split; auto. Qed.

Lemma pending_snoc dt tr o ev :
  pending dt tr o -> ev <> Appended -> pending dt (tr ++ [ev]) o.
Proof.
  intros (tr0 & m & -> & Hr & Ho & Hm) Hev. exists tr0, (m ++ [ev]).
  repeat split; try done.
  - by rewrite <- app_assoc.
  - intros [Hin|[Hin|[]]]%in_app_or; [by apply Hm|by apply Hev].
Qed.

Lemma split_at_last {A} (x : A) (l1 l2 l0 m : list A) :
  ~ In x m -> l1 ++ x :: l2 = l0 ++ x :: m ->
  (l1 = l0 /\ l2 = m)
  \/ (exists k, l0 = l1 ++ x :: k /\ l2 = k ++ x :: m).
Proof.
  intros Hm E. apply app_eq_app in E as [l [[-> E]|[-> E]]].
  - destruct l as [|y l]; simpl in E.
    + injection E as <-. left. by rewrite app_nil_r.
    + injection E as <- ->. destruct Hm. apply in_or_app. right. by left.
  - destruct l as [|y l]; simpl in E.
    + injection E as ->. left. by rewrite app_nil_r.
    + injection E as <- ->. right. by exists l.
Qed.

Lemma pending_exit dt tr s r :
  pending dt tr (Some s) -> ltb (sub r s) dt = false ->
  ready dt (tr ++ [PerfCounter r]).
Proof.
  intros (tr0 & m & -> & Hr & Ho & Hm) Hd pre mid E.
  rewrite <- app_assoc in E. simpl in E. symmetry in E.
  apply split_at_last in E as [[-> ->]|(k & -> & ->)].
  - exists s, r. repeat split; try done. apply in_or_app. right. by left.
  - apply waited_more. by apply Hr.
  - intros [Hin|[Hin|[]]]%in_app_or; [by apply Hm|done].
Qed.

End TraceFacts.

Section Walk.
Context {F : Type} `{Number F}.
Variable dt : F.
Variable ps0 : list F.
Implicit Types (w : world F).

Ltac fields :=
  unfold at_boundary, waiting, released, stopped in *; unfold base in *;
  cbn [bufs timestamp_offset local_clock_time old_time script trace
       pull_chunk local_clock time_correction perf_counter] in *.

Lemma busy_wait_walk n :
  hoare (waiting dt ps0) (busy_wait dt n)
    (fun _ => released dt ps0) (stopped dt ps0).
Proof.
  induction n as [|n IH]; simpl.
  - by intros w [Hb _].
  - eapply hoare_bind.
    { apply (hoare_call _ _ _ _
               (fun now w => exists tr1, trace w = tr1 ++ [PerfCounter now]
                                          /\ base dt ps0 w
                                          /\ pending dt tr1 (old_time w))).
      - by intros w [Hb _] _.
      - intros w now more [[Hg Hps] Hp] E. fields. eexists. split; [done|].
        split; [split|done].
        + apply guarded_snoc; [done|]. intros [?|[? ?]]; done.
        + rewrite readings_snoc, <- app_assoc. simpl. by rewrite <- E. }
    intros now. eapply hoare_bind.
    { apply (hoare_load _ _
               (fun old w => exists tr1, trace w = tr1 ++ [PerfCounter now]
                                          /\ base dt ps0 w
                                          /\ old_time w = Some old
                                          /\ pending dt tr1 (Some old))).
      - intros w old (tr1 & E & Hb & Hp) Ho. exists tr1. rewrite <- Ho. auto.
      - by intros w (tr1 & E & Hb & Hp) _. }
    intros old. destruct (ltb (sub now old) dt) eqn:Hcmp.
    + eapply hoare_pre; [|exact IH].
      intros w (tr1 & E & Hb & Ho & Hp). split; [done|].
      rewrite E, Ho. by apply pending_snoc.
    + apply hoare_ret. intros w (tr1 & E & Hb & Ho & Hp). split; [done|].
      rewrite E. by eapply pending_exit.
Qed.

Lemma throttle_walk :
  hoare (waiting dt ps0) (throttle dt)
    (fun _ => released dt ps0) (stopped dt ps0).
Proof.
  unfold throttle. eapply hoare_bind.
  - apply (hoare_gets _ _ (fun _ => waiting dt ps0)). auto.
  - intros e. apply busy_wait_walk.
Qed.

Lemma base_quiet w ev tr' sc' :
  base dt ps0 w -> quiet ev -> tr' = trace w ++ [ev] ->
  perf_counter sc' = perf_counter (script w) ->
  guarded dt is_poll_or_append tr' /\ readings tr' ++ perf_counter sc' = ps0.
Proof.
  intros [Hg Hps] Hq -> ->. split.
  - apply guarded_snoc; [done|]. intros [->|[? ->]]; done.
  - rewrite readings_snoc. destruct ev; try done; by rewrite app_nil_r.
Qed.

Lemma loop_body_walk :
  hoare (at_boundary dt ps0) (loop_body dt)
    (fun _ => at_boundary dt ps0) (stopped dt ps0).
Proof.
  unfold loop_body. eapply hoare_bind.
  { apply (hoare_call _ _ _ _ (fun _ => at_boundary dt ps0)).
    - by intros w [Hb _] _.
    - intros w r more ([Hg Hps] & Hr & Ho) E. fields.
      split; [split|split].
      + by apply guarded_snoc_ready.
      + rewrite readings_snoc. by rewrite app_nil_r.
      + by apply ready_snoc.
      + by rewrite last_perf_snoc. }
  intros [chunk timestamps].
  eapply (hoare_bind _ _ _ (fun _ => released dt ps0)).
  { destruct chunk as [|row chunk].
    { apply hoare_ret. by intros w (Hb & Hr & _). }
    eapply hoare_bind.
    { apply (hoare_call _ _ _ _ (fun _ => at_boundary dt ps0)).
      - by intros w [Hb _] _.
      - intros w t more (Hb & Hr & Ho) E. fields. split; [|split].
        + by eapply (base_quiet w (LocalClock t)).
        + by apply ready_snoc.
        + by rewrite last_perf_snoc. }
    intros current_local_time. eapply hoare_bind.
    { apply (hoare_call _ _ _ _ (fun _ => at_boundary dt ps0)).
      - by intros w [Hb _] _.
      - intros w t more (Hb & Hr & Ho) E. fields. split; [|split].
        + by eapply (base_quiet w (TimeCorrection t)).
        + by apply ready_snoc.
        + by rewrite last_perf_snoc. }
    intros offset. eapply hoare_bind.
    { apply (hoare_modify _ _ (fun _ => at_boundary dt ps0)). by intros w Hw. }
    intros ?. eapply hoare_bind.
    { apply (hoare_on_buffers _ _ (fun _ => at_boundary dt ps0)).
      intros w Hw. cbn zeta.
      destruct (getRingbufferValues _ _ _ _ _); [done| |]; by destruct Hw. }
    intros ?. eapply hoare_bind.
    { apply (hoare_log _ _ (fun _ => waiting dt ps0)).
      intros w ([Hg Hps] & Hr & Ho). unfold logged. fields.
      split; [split|].
      - by apply guarded_snoc_ready.
      - rewrite readings_snoc. by rewrite app_nil_r.
      - rewrite Ho. by apply pending_intro. }
    intros ?. eapply hoare_bind.
    { apply (hoare_call _ _ _ _ (fun _ => waiting dt ps0)).
      - by intros w [Hb _] _.
      - intros w t more (Hb & Hp) E. fields. split.
        + by eapply (base_quiet w (LocalClock t)).
        + by apply pending_snoc. }
    intros t. eapply hoare_bind.
    { apply (hoare_modify _ _ (fun _ => waiting dt ps0)). by intros w Hw. }
    intros ?. apply throttle_walk. }
  intros ?. eapply hoare_bind.
  { apply (hoare_call _ _ _ _
             (fun t w => released dt ps0 w /\ last_perf (trace w) = Some t)).
    - by intros w [Hb _] _.
    - intros w t more ([Hg Hps] & Hr) E. fields.
      split; [split; [split|]|].
      + apply guarded_snoc; [done|]. intros [?|[? ?]]; done.
      + rewrite readings_snoc, <- app_assoc. simpl. by rewrite <- E.
      + by apply ready_snoc.
      + by rewrite last_perf_snoc. }
  intros t. apply hoare_modify. intros w ((Hb & Hr) & Hl). by fields.
Qed.

Lemma while_running_walk n :
  hoare (at_boundary dt ps0) (while_running dt n)
    (fun _ => base dt ps0) (stopped dt ps0).
Proof.
  induction n as [|n IH]; simpl.
  - apply hoare_ret. by intros w [Hb _].
  - eapply hoare_bind; [apply loop_body_walk|]. intros ?. exact IH.
Qed.

End Walk.

Section Separation.
Context {F : Type} `{Number F}.
Implicit Types (tr pre mid post : list (event F)).

Lemma hoare_final {S A} (P : S -> Prop) (m : M S A) (Q : S -> Prop) s :
  hoare P m (fun _ => Q) (fun _ => Q) -> P s -> Q (final_store (m s)).
Proof. intros Hm Hs. specialize (Hm s Hs). by destruct (m s). Qed.

Lemma main_walk buffer_size channel_count dt iterations (e : env F) :
  base dt (perf_counter e)
    (final_store (main buffer_size channel_count dt iterations e)).
Proof.
  unfold main.
  apply (hoare_final (fun w => trace w = [] /\ old_time w = None
                               /\ perf_counter (script w) = perf_counter e));
    [|done].
  eapply hoare_bind.
  { apply (hoare_call _ _ _ _ (fun _ => at_boundary dt (perf_counter e))).
    - intros w (Htr & _ & Hps) _. split; rewrite Htr; [apply guarded_nil|done].
    - intros w c more (Htr & Ho & Hps) E.
      unfold at_boundary, base.
      cbn [old_time script trace perf_counter]. rewrite Htr, Ho.
      split; [split|split]; try done.
      + apply (guarded_snoc _ _ []); [apply guarded_nil|].
        intros [?|[? ?]]; done.
      + apply (ready_snoc _ []); [apply ready_nil|done]. }
  intros offset. eapply hoare_bind.
  { apply (hoare_modify _ _ (fun _ => at_boundary dt (perf_counter e))).
    by intros w Hw. }
  intros ?. apply while_running_walk.
Qed.

Lemma readings_app tr tr' : readings (tr ++ tr') = readings tr ++ readings tr'.
Proof. unfold readings. apply omap_app. Qed.

Lemma last_perf_in_readings tr t : last_perf tr = Some t -> In t (readings tr).
Proof.
  induction tr as [|ev tr IH]; simpl; [done|].
  destruct (last_perf tr) as [t'|].
  - intros [= ->]. unfold readings. simpl.
    destruct ev; simpl; auto.
  - destruct ev; try done. intros [= ->]. by left.
Qed.

Lemma last_perf_sorted (R : F -> F -> Prop) mid r :
  In (PerfCounter r) mid -> StronglySorted R (readings mid) ->
  exists s', last_perf mid = Some s' /\ (s' = r \/ R r s').
Proof.
  induction mid as [|ev mid IH]; [done|]. intros [->|Hin] Hs.
  - unfold readings in Hs. simpl in Hs. apply StronglySorted_inv in Hs as [_ Hr].
    simpl. destruct (last_perf mid) as [t|] eqn:Et.
    + exists t. split; [done|]. right.
      rewrite Forall_forall in Hr. apply Hr.
      apply list_elem_of_In. by apply last_perf_in_readings.
    + exists r. auto.
  - assert (Hs' : StronglySorted R (readings mid)).
    { unfold readings in Hs. simpl in Hs. destruct ev; try done.
      by apply StronglySorted_inv in Hs as [? _]. }
    destruct (IH Hin Hs') as (s' & Es & Hs''). exists s'. simpl. by rewrite Es.
Qed.

End Separation.

(** C9. The pacing loop.  In the trace of any run of [main]:
    - whenever a buffer update is followed, later, by a poll, a
      [perf_counter()] reading [r] with [not (r - s < dt_read_buffer)] was
      taken in between, [s] being the last reading before the update (the
      value [old_time] holds while that chunk is processed, taken when the
      previous iteration ended);
    - when the clock readings never decrease and subtraction is monotone
      (exact arithmetic), any two buffer updates have start readings [s],
      [s'] with [not (s' - s < dt_read_buffer)]: no two chunks are processed
      in iterations that start less than [dt_read_buffer] apart. *)
Theorem pacing_one_chunk_per_interval {F : Type} {N : Number F}
    (buffer_size channel_count : nat) (dt_read_buffer : F) (iterations : nat)
    (e : env F) :
  let tr :=
    trace (final_store
             (main buffer_size channel_count dt_read_buffer iterations e)) in
  (forall pre mid n post,
      tr = pre ++ Appended :: mid ++ Polled n :: post ->
      exists s r, last_perf pre = Some s /\ In (PerfCounter r) mid
                  /\ ltb (sub r s) dt_read_buffer = false)
  /\ ((forall a b c : F, leb a b = true -> ltb (sub a c) dt_read_buffer = false ->
                         ltb (sub b c) dt_read_buffer = false) ->
      StronglySorted (fun a b => leb a b = true) (perf_counter e) ->
      forall pre mid post,
        tr = pre ++ Appended :: mid ++ Appended :: post ->
        exists s s', last_perf pre = Some s
                     /\ last_perf (pre ++ Appended :: mid) = Some s'
                     /\ ltb (sub s' s) dt_read_buffer = false).
Proof.
  intros tr.
  destruct (main_walk buffer_size channel_count dt_read_buffer iterations e)
    as [Hg Hps]. fold tr in Hg, Hps. split.
  - intros pre mid n post E. eapply Hg; [exact E|]. right. by exists n.
  - intros Hmono Hsorted pre mid post E.
    destruct (Hg pre mid Appended post E) as (s & r & Hs & Hr & Hd); [by left|].
    rewrite <- Hps in Hsorted. apply StronglySorted_app_1_l in Hsorted.
    rewrite E in Hsorted. rewrite readings_app in Hsorted.
    apply StronglySorted_app_1_r in Hsorted.
    change (Appended :: mid ++ Appended :: post)
      with ([Appended] ++ mid ++ Appended :: post) in Hsorted.
    rewrite !readings_app in Hsorted.
    apply StronglySorted_app_1_r, StronglySorted_app_1_l in Hsorted.
    destruct (last_perf_sorted _ mid r Hr Hsorted) as (s' & Es' & Hrs).
    exists s, s'. split; [done|]. split.
    + rewrite last_perf_app. simpl. by rewrite Es'.
    + destruct Hrs as [->|Hle]; [done|]. by eapply Hmono.
Qed.

Section NameError.
Context {F : Type} `{Number F}.
Implicit Types (w : world F).

Lemma setitem_rows_exn lo hi src (a : matrix F) x :
  setitem_rows lo hi src a = inl x -> is_NameError x = false.
Proof.
  unfold setitem_rows. destruct (slice_bounds _ _ _).
  destruct (broadcast2 _ _ _); [done|]. by intros [= <-].
Qed.

Lemma setitem_col_exn lo hi j src (a : matrix F) x :
  setitem_col lo hi j src a = inl x -> is_NameError x = false.
Proof.
  unfold setitem_col. destruct (j <? ncols a); [|by intros [= <-]].
  destruct (slice_bounds _ _ _).
  destruct (broadcast1 _ _); [done|]. by intros [= <-].
Qed.

Lemma col_from_exn n j (a : matrix F) x :
  col_from n j a = inl x -> is_NameError x = false.
Proof.
  unfold col_from. destruct (j <? ncols a); [|by intros [= <-]].
  destruct (mapM _ _); [done|]. by intros [= <-].
Qed.

Lemma shape0_exn (a : ndarray F) x : shape0 a = inl x -> is_NameError x = false.
Proof. unfold shape0. destruct (shape a !! 0); [done|]. by intros [= <-]. Qed.

Lemma harmless_bind {S A B} (m : M S A) (k : A -> M S B) :
  harmless m -> (forall a, harmless (k a)) -> harmless (bind m k).
Proof. intros Hm Hk. eapply hoare_bind; [exact Hm|]. intros a. apply Hk. Qed.

Lemma harmless_lift {S A} (r : exn + A) :
  (forall x, r = inl x -> is_NameError x = false) -> harmless (S:=S) (lift r).
Proof.
  intros Hr s _. destruct r as [x|a]; simpl; [|done].
  intros ? [= <-]. by apply Hr.
Qed.

Lemma harmless_assign_data (f : matrix F -> exn + matrix F) :
  (forall a x, f a = inl x -> is_NameError x = false) -> harmless (assign_data f).
Proof.
  intros Hf s _. unfold assign_data. destruct (f _) eqn:E; [|done].
  intros ? [= <-]. by eapply Hf.
Qed.

Lemma harmless_assign_time (f : matrix F -> exn + matrix F) :
  (forall a x, f a = inl x -> is_NameError x = false) -> harmless (assign_time f).
Proof.
  intros Hf s _. unfold assign_time. destruct (f _) eqn:E; [|done].
  intros ? [= <-]. by eapply Hf.
Qed.

Lemma harmless_shift_column n j (new : ndarray F) :
  harmless (shift_column n j new).
Proof.
  unfold shift_column. apply harmless_bind.
  - intros s _. destruct (col_from _ _ _) eqn:E; simpl; [|done].
    intros ? [= <-]. by eapply col_from_exn.
  - intros temp. apply harmless_bind; [|intros ?];
      apply harmless_assign_time; intros; by eapply setitem_col_exn.
Qed.

Lemma harmless_getRingbufferValues chunk timestamps (clt off : F) :
  harmless (getRingbufferValues chunk timestamps clt off).
Proof.
  unfold getRingbufferValues. apply harmless_bind.
  { apply harmless_lift. intros x Hx. by rewrite (np_array2_error _ _ Hx). }
  intros cc. apply harmless_bind.
  { apply harmless_lift. apply shape0_exn. }
  intros n. apply harmless_bind; [done|].
  intros temp. apply harmless_bind.
  { apply harmless_assign_data. intros; by eapply setitem_rows_exn. }
  intros ?. apply harmless_bind.
  { apply harmless_assign_data. intros; by eapply setitem_rows_exn. }
  intros ?. apply harmless_bind; [apply harmless_shift_column|].
  intros ?. apply harmless_bind; [apply harmless_shift_column|].
  intros ?. apply harmless_shift_column.
Qed.

Lemma busy_wait_bound dt n :
  hoare bound (busy_wait dt n) (fun _ => bound) no_name_error.
Proof.
  induction n as [|n IH]; simpl; [by intros w _ x|].
  eapply hoare_bind.
  { apply (hoare_call _ _ _ _ (fun _ => bound)); [by intros w _ _ x|].
    by intros w now more Hw _. }
  intros now. eapply hoare_bind.
  { apply (hoare_load _ _ (fun _ => bound)); [by intros|].
    intros w [o Ho] E. unfold bound in *. congruence. }
  intros old. destruct (ltb _ _); [exact IH|]. by apply hoare_ret.
Qed.

Lemma loop_body_bound dt :
  hoare bound (loop_body dt) (fun _ => bound) no_name_error.
Proof.
  unfold loop_body. eapply hoare_bind.
  { apply (hoare_call _ _ _ _ (fun _ => bound)); [by intros w _ _ x|].
    by intros w r more Hw _. }
  intros [chunk timestamps]. eapply (hoare_bind _ _ _ (fun _ => bound)).
  { destruct chunk as [|row chunk]; [by apply hoare_ret|].
    eapply hoare_bind.
    { apply (hoare_call _ _ _ _ (fun _ => bound)); [by intros w _ _ x|].
      by intros w r more Hw _. }
    intros clt. eapply hoare_bind.
    { apply (hoare_call _ _ _ _ (fun _ => bound)); [by intros w _ _ x|].
      by intros w r more Hw _. }
    intros off. eapply hoare_bind.
    { by apply (hoare_modify _ _ (fun _ => bound)). }
    intros ?. eapply hoare_bind.
    { apply (hoare_on_buffers _ _ (fun _ => bound)). intros w Hw. cbn zeta.
      pose proof (harmless_getRingbufferValues (row :: chunk) timestamps clt off
                    (bufs w) I) as Hh.
      by destruct (getRingbufferValues _ _ _ _ _). }
    intros ?. eapply hoare_bind.
    { by apply (hoare_log _ _ (fun _ => bound)). }
    intros ?. eapply hoare_bind.
    { apply (hoare_call _ _ _ _ (fun _ => bound)); [by intros w _ _ x|].
      by intros w r more Hw _. }
    intros t. eapply hoare_bind.
    { by apply (hoare_modify _ _ (fun _ => bound)). }
    intros ?. unfold throttle. eapply hoare_bind.
    { by apply (hoare_gets _ _ (fun _ => bound)). }
    intros e. apply busy_wait_bound. }
  intros ?. eapply hoare_bind.
  { apply (hoare_call _ _ _ _ (fun _ => bound)); [by intros w _ _ x|].
    by intros w r more Hw _. }
  intros t. apply hoare_modify. intros w _. by exists t.
Qed.

Lemma while_running_bound dt n :
  hoare bound (while_running dt n) (fun _ => bound) no_name_error.
Proof.
  induction n as [|n IH]; simpl; [by apply hoare_ret|].
  eapply hoare_bind; [apply loop_body_bound|]. intros ?. exact IH.
Qed.

End NameError.

(** ** The first iteration and [old_time] *)

Section FirstIteration.
Context {F : Type} `{Number F}.

Lemma wf_np_zeros b c : wf b c (np_zeros (F:=F) b c).
Proof.
  unfold wf, np_zeros. cbn [ncols rows]. split; [done|]. split.
  - apply length_replicate.
  - apply Forall_replicate. apply length_replicate.
Qed.

Ltac run :=
  cbv -[while_running getRingbufferValues np_zeros length app drop map
        is_NameError].

(** A valid chunk on the very first poll: the chunk is appended, and the
    first test of the busy wait reads [old_time] unassigned. *)
Lemma first_chunk_raises bs cc dt k row chunk ts polls l0 l1 ls c0 c1 cs p ps :
  Forall (fun r => length r = cc) (row :: chunk) ->
  length ts = S (length chunk) -> S (length chunk) <= bs ->
  main bs cc dt (S k)
    (Env ((row :: chunk, ts) :: polls) (l0 :: l1 :: ls) (c0 :: c1 :: cs)
         (p :: ps))
  = Raise UnboundLocalError
      (World
         (Buffers
            (Matrix cc (drop (S (length chunk)) (rows (np_zeros bs cc))
                        ++ row :: chunk))
            (Matrix 3 (drop (S (length chunk)) (rows (np_zeros bs 3))
                       ++ map (fun t => [t; l0; c1]) ts)))
         (Some c1) (Some l1) None
         (Env polls ls cs ps)
         [TimeCorrection c0; Polled (S (length chunk)); LocalClock l0;
          TimeCorrection c1; Appended; LocalClock l1; PerfCounter p]).
Proof.
  intros Hw Hts Hn.
  pose proof (getRingbufferValues_valid bs cc (S (length chunk))
    (np_zeros bs cc) (np_zeros bs 3) (row :: chunk) ts l0 c1
    (wf_np_zeros _ _) (wf_np_zeros _ _) eq_refl Hw Hts ltac:(lia)) as Hv.
  unfold main. change (while_running dt (S k))
    with (do loop_body dt ;; while_running dt k).
  run. rewrite Hv. run. reflexivity.
Qed.

(** A [NameError] can only come from the first iteration, on a first poll
    that returned samples. *)
Lemma name_error_first bs cc dt k (e : env F) x w :
  main bs cc dt k e = Raise x w -> is_NameError x = true ->
  exists row chunk ts polls c0 l0 c1 l1 p,
    pull_chunk e = (row :: chunk, ts) :: polls
    /\ trace w = [TimeCorrection c0; Polled (S (length chunk)); LocalClock l0;
                  TimeCorrection c1; Appended; LocalClock l1; PerfCounter p].
Proof.
  destruct e as [pc lc tc pf]. unfold main.
  destruct tc as [|c0 cs]; [done|].
  destruct k as [|k]; [done|].
  change (while_running dt (S k))
    with (do loop_body dt ;; while_running dt k).
  destruct pc as [|[chunk ts] polls]; [done|].
  destruct chunk as [|row chunk].
  - destruct pf as [|p ps]; [done|]. run. intros Hrun Hx.
    match type of Hrun with while_running _ _ ?w1 = _ =>
      pose proof (while_running_bound dt k w1 ltac:(by eexists)) as Hb
    end.
    rewrite Hrun in Hb. rewrite (Hb x eq_refl) in Hx. discriminate.
  - destruct lc as [|l0 ls]; [done|].
    destruct cs as [|c1 cs]; [done|].
    run.
    pose proof (harmless_getRingbufferValues (row :: chunk) ts l0 c1
                  (Buffers (np_zeros bs cc) (np_zeros bs 3)) I) as Hh.
    destruct (getRingbufferValues _ _ _ _ _) as [[] b|x' b|b]; [| |done].
    + destruct ls as [|l1 ls]; [done|].
      destruct pf as [|p ps]; [done|].
      run. intros [= <- <-] _. by repeat eexists.
    + intros [= <- <-] Hx. rewrite (Hh x' eq_refl) in Hx. discriminate.
Qed.

End FirstIteration.

(** C10, as the code has it.  [old_time] is assigned at the end of every
    iteration, with or without a chunk.
    - If the very first poll returns a (valid) chunk, the chunk is appended
      and the first test of the busy wait reads [old_time] unassigned: the
      loop stops with [UnboundLocalError], a [NameError].
    - A [NameError] arises in no other way: a run that raises one has polled
      once, got samples, appended them and read the clock once.
    - In particular, after an empty first poll no chunk ever raises it. *)
Theorem old_time_unbound_on_first_poll {F : Type} {N : Number F}
    (buffer_size channel_count : nat) (dt_read_buffer : F) (iterations : nat)
    (e : env F) :
  (forall row chunk ts polls l0 l1 ls c0 c1 cs p ps,
      e = Env ((row :: chunk, ts) :: polls) (l0 :: l1 :: ls) (c0 :: c1 :: cs)
              (p :: ps) ->
      Forall (fun r => length r = channel_count) (row :: chunk) ->
      length ts = S (length chunk) -> S (length chunk) <= buffer_size ->
      0 < iterations ->
      exists w,
        main buffer_size channel_count dt_read_buffer iterations e
        = Raise UnboundLocalError w
        /\ is_NameError UnboundLocalError = true
        /\ old_time w = None
        /\ trace w = [TimeCorrection c0; Polled (S (length chunk));
                      LocalClock l0; TimeCorrection c1; Appended;
                      LocalClock l1; PerfCounter p])
  /\ (forall x w,
        main buffer_size channel_count dt_read_buffer iterations e = Raise x w ->
        is_NameError x = true ->
        exists row chunk ts polls c0 l0 c1 l1 p,
          pull_chunk e = (row :: chunk, ts) :: polls
          /\ trace w = [TimeCorrection c0; Polled (S (length chunk));
                        LocalClock l0; TimeCorrection c1; Appended;
                        LocalClock l1; PerfCounter p])
  /\ (forall ts polls x w,
        pull_chunk e = ([], ts) :: polls ->
        main buffer_size channel_count dt_read_buffer iterations e = Raise x w ->
        is_NameError x = false).
Proof.
  split; [|split].
  - intros row chunk ts polls l0 l1 ls c0 c1 cs p ps -> Hw Hts Hn Hk.
    destruct iterations as [|k]; [lia|].
    eexists. split; [by apply first_chunk_raises|]. done.
  - intros x w. apply name_error_first.
  - intros ts polls x w Hpoll Hrun.
    destruct (is_NameError x) eqn:Hx; [|done].
    destruct (name_error_first _ _ _ _ _ _ _ Hrun Hx)
      as (row & chunk & ts' & polls' & ? & ? & ? & ? & ? & Hpoll' & _).
    congruence.
Qed.

(** C10, refuted as stated: the first chunk arrives on the second poll, after
    an empty one; it is appended and throttled, and the loop goes on. *)
Lemma first_chunk_after_empty_poll :
  main 4 1 0.04%float 2
    (Env [([], []); ([[5]; [6]], [7; 8])]%float [1; 2]%float
         [0.1; 0.1; 0.1]%float [0; 0.05; 0.06]%float)
  = Ret tt
      (World
         (Buffers (Matrix 1 [[0]; [0]; [5]; [6]]%float)
            (Matrix 3 [[0; 0; 0]; [0; 0; 0];
                       [7; 1; 0.1]; [8; 1; 0.1]]%float))
         (Some 0.1%float) (Some 2%float) (Some 0.06%float)
         (Env [] [] [0.1]%float [])
         [TimeCorrection 0.1; Polled 0; PerfCounter 0; Polled 2; LocalClock 1;
          TimeCorrection 0.1; Appended; LocalClock 2; PerfCounter 0.05;
          PerfCounter 0.06]%float).
Proof. reflexivity. Qed.

(** * Instances of the theorems on concrete inputs *)

Ltac shape_ok := unfold wf; cbn; repeat split; repeat constructor.

(** Two samples into a zeroed buffer of four rows. *)
Lemma data_buffer_shift_append_witness :
  let out :=
    getRingbufferValues [[5]; [6]]%float [7; 8]%float 1.0%float 0.1%float
      (Buffers (np_zeros 4 1) (np_zeros 4 3)) in
  let rows' := rows (data_buffer (final_store out)) in
  length rows' = 4
  /\ drop (4 - 2) rows' = [[5]; [6]]%float
  /\ take (4 - 2) rows' = drop 2 (rows (np_zeros 4 1))
  /\ (length [7; 8]%float = 2 -> exists s', out = Ret tt s').
Proof.
  apply (data_buffer_shift_append 4 1 2);
    [shape_ok | shape_ok | reflexivity | repeat constructor | lia].
Defined.

Lemma time_record_alignment_witness :
  exists s',
    getRingbufferValues [[5]; [6]]%float [7; 8]%float 1.0%float 0.1%float
      (Buffers (np_zeros 4 1) (np_zeros 4 3)) = Ret tt s'
    /\ wf 4 1 (data_buffer s') /\ wf 4 3 (timestamp_buffer s')
    /\ forall i, i < 4 ->
         (i < 4 - 2 ->
            rows (data_buffer s') !! i = rows (np_zeros 4 1) !! (i + 2)
            /\ rows (timestamp_buffer s') !! i = rows (np_zeros 4 3) !! (i + 2))
         /\ (4 - 2 <= i ->
            rows (data_buffer s') !! i = [[5]; [6]]%float !! (i - (4 - 2))
            /\ exists t, [7; 8]%float !! (i - (4 - 2)) = Some t
                 /\ rows (timestamp_buffer s') !! i
                    = Some [t; 1.0; 0.1]%float).
Proof.
  apply (time_record_alignment 4 1 2);
    [shape_ok | shape_ok | reflexivity | repeat constructor | reflexivity | lia].
Defined.

(** A row of three values, and a row of one value, for two channels. *)
Lemma shape_mismatch_raises_witness :
  (exists s',
      getRingbufferValues [[7; 8; 9]]%float [1]%float 1.0%float 0.1%float
        (Buffers (Matrix 2 [[1; 2]; [3; 4]]%float) (np_zeros 2 3))
      = Raise ValueError s')
  /\ (exists s',
        getRingbufferValues [[7]]%float [1]%float 1.0%float 0.1%float
          (Buffers (Matrix 2 [[1; 2]; [3; 4]]%float) (np_zeros 2 3))
        = Ret tt s').
Proof.
  split.
  - apply (proj1 (shape_mismatch_raises 2 2 1 3
                    (Matrix 2 [[1; 2]; [3; 4]]%float) (np_zeros 2 3)
                    [[7; 8; 9]]%float [1]%float 1.0%float 0.1%float
                    ltac:(shape_ok) ltac:(shape_ok) eq_refl
                    ltac:(repeat constructor) ltac:(lia))).
    left. lia.
  - apply (proj2 (shape_mismatch_raises 2 2 1 1
                    (Matrix 2 [[1; 2]; [3; 4]]%float) (np_zeros 2 3)
                    [[7]]%float [1]%float 1.0%float 0.1%float
                    ltac:(shape_ok) ltac:(shape_ok) eq_refl
                    ltac:(repeat constructor) ltac:(lia)));
      [by right | by left].
Defined.

(** Three timestamps for two samples: the third state. *)
Lemma failed_append_state_witness :
  let n := length [[5]; [6]]%float in
  ValueError = ValueError
  /\ ((np_array2 [[5]; [6]]%float = inl ValueError
       /\ Buffers (Matrix 1 [[0]; [0]; [5]; [6]]%float)
            (Matrix 3 [[3; 1; 1]; [4; 2; 2]; [3; 3; 3]; [4; 4; 4]]%float)
          = Buffers (np_zeros 4 1)
              (Matrix 3 [[1; 1; 1]; [2; 2; 2]; [3; 3; 3]; [4; 4; 4]]%float))
      \/ (exists cc, np_array2 [[5]; [6]]%float = inr cc
            /\ broadcast2 (4 - (4 - n)) 1 cc = None
            /\ Buffers (Matrix 1 [[0]; [0]; [5]; [6]]%float)
                 (Matrix 3 [[3; 1; 1]; [4; 2; 2]; [3; 3; 3]; [4; 4; 4]]%float)
               = Buffers
                   (Matrix 1 (drop n (rows (np_zeros 4 1))
                              ++ drop (4 - n) (rows (np_zeros 4 1))))
                   (Matrix 3 [[1; 1; 1]; [2; 2; 2]; [3; 3; 3];
                              [4; 4; 4]]%float))
      \/ (exists cc new, np_array2 [[5]; [6]]%float = inr cc
            /\ broadcast2 (4 - (4 - n)) 1 cc = Some new
            /\ broadcast1 (4 - (4 - n)) (Vec [7; 8; 9]%float) = None
            /\ Buffers (Matrix 1 [[0]; [0]; [5]; [6]]%float)
                 (Matrix 3 [[3; 1; 1]; [4; 2; 2]; [3; 3; 3]; [4; 4; 4]]%float)
               = Buffers (Matrix 1 (drop n (rows (np_zeros 4 1)) ++ new))
                   (Matrix 3
                      (put_col 0
                         (take (4 - n)
                            [[1; 1; 1]; [2; 2; 2]; [3; 3; 3]; [4; 4; 4]]%float)
                         (column 0
                            (drop n [[1; 1; 1]; [2; 2; 2]; [3; 3; 3];
                                     [4; 4; 4]]%float))
                       ++ drop (4 - n)
                            [[1; 1; 1]; [2; 2; 2]; [3; 3; 3];
                             [4; 4; 4]]%float)))).
Proof.
  apply (failed_append_state 4 1 (np_zeros 4 1)
           (Matrix 3 [[1; 1; 1]; [2; 2; 2]; [3; 3; 3]; [4; 4; 4]]%float)
           [[5]; [6]]%float [7; 8; 9]%float 1.0%float 0.1%float);
    [shape_ok | shape_ok | reflexivity].
Defined.

Lemma empty_chunk_rejected_witness :
  getRingbufferValues [] [] 1.0%float 0.1%float
    (Buffers (np_zeros 4 1) (np_zeros 4 3))
  = Raise ValueError (Buffers (np_zeros 4 1) (np_zeros 4 3)).
Proof.
  apply (empty_chunk_rejected 4 1); [shape_ok | shape_ok | lia].
Defined.

(** Two and three samples into a buffer of two rows. *)
Lemma boundary_chunk_lengths_witness :
  getRingbufferValues [[5]; [6]]%float [7; 8]%float 1.0%float 0.1%float
    (Buffers (Matrix 1 [[1]; [2]]%float) (np_zeros 2 3))
  = Ret tt (Buffers (Matrix 1 [[5]; [6]]%float)
              (Matrix 3 [[7; 1.0; 0.1]; [8; 1.0; 0.1]]%float))
  /\ getRingbufferValues [[5]; [6]; [7]]%float [7; 8; 9]%float 1.0%float
       0.1%float (Buffers (Matrix 1 [[1]; [2]]%float) (np_zeros 2 3))
     = Raise ValueError (Buffers (Matrix 1 [[1]; [2]]%float) (np_zeros 2 3)).
Proof.
  split.
  - apply (proj1 (boundary_chunk_lengths 2 1 (Matrix 1 [[1]; [2]]%float)
                    (np_zeros 2 3) [[5]; [6]]%float [7; 8]%float 1.0%float
                    0.1%float ltac:(shape_ok) ltac:(shape_ok) ltac:(lia)));
      [reflexivity | repeat constructor | reflexivity].
  - apply (proj2 (boundary_chunk_lengths 2 1 (Matrix 1 [[1]; [2]]%float)
                    (np_zeros 2 3) [[5]; [6]; [7]]%float [7; 8; 9]%float
                    1.0%float 0.1%float
                    ltac:(shape_ok) ltac:(shape_ok) ltac:(lia))).
    simpl. lia.
Defined.

(** Exact rationals satisfy the arithmetic law that the separation of
    iteration starts relies on. *)
Lemma Q_sub_mono (dt a b c : Q) :
  leb a b = true -> ltb (sub a c) dt = false -> ltb (sub b c) dt = false.
Proof.
  cbn [leb ltb sub Q_number]. rewrite !negb_false_iff, !Qle_bool_iff.
  intros Hab Hd. eapply Qle_trans; [exact Hd|].
  unfold Qminus. apply Qplus_le_compat; [exact Hab|apply Qle_refl].
Qed.

(** A clock that ticks every 0.01 s, an interval of 0.04 s, an empty first
    poll and then a chunk on every poll. *)
Lemma pacing_one_chunk_per_interval_witness :
  (exists s r,
      last_perf [TimeCorrection 0; Polled 0; PerfCounter 0; Polled 1;
                 LocalClock 0; TimeCorrection 0]%Q = Some s
      /\ In (PerfCounter r)
            [LocalClock 0; PerfCounter (1 # 100); PerfCounter (2 # 100);
             PerfCounter (3 # 100); PerfCounter (4 # 100);
             PerfCounter (5 # 100)]%Q
      /\ ltb (sub r s) (4 # 100)%Q = false)
  /\ (exists s s',
        last_perf [TimeCorrection 0; Polled 0; PerfCounter 0; Polled 1;
                   LocalClock 0; TimeCorrection 0]%Q = Some s
        /\ last_perf
             ([TimeCorrection 0; Polled 0; PerfCounter 0; Polled 1;
               LocalClock 0; TimeCorrection 0]%Q
              ++ Appended
                 :: [LocalClock 0; PerfCounter (1 # 100);
                     PerfCounter (2 # 100); PerfCounter (3 # 100);
                     PerfCounter (4 # 100); PerfCounter (5 # 100); Polled 1;
                     LocalClock 0; TimeCorrection 0]%Q) = Some s'
        /\ ltb (sub s' s) (4 # 100)%Q = false).
Proof.
  pose proof (pacing_one_chunk_per_interval (F:=Q) 4 1 (4 # 100)%Q 3
    (Env [([], []); ([[1]], [1]); ([[2]], [2])]%Q [0; 0; 0; 0]%Q [0; 0; 0]%Q
         [0; 1 # 100; 2 # 100; 3 # 100; 4 # 100; 5 # 100; 6 # 100; 7 # 100;
          8 # 100; 9 # 100; 10 # 100]%Q)) as Hrun.
  cbv zeta in Hrun. destruct Hrun as [Hpoll Hnext]. split.
  - apply (Hpoll _ _ 1
             [LocalClock 0; TimeCorrection 0; Appended; LocalClock 0;
              PerfCounter (6 # 100); PerfCounter (7 # 100);
              PerfCounter (8 # 100); PerfCounter (9 # 100);
              PerfCounter (10 # 100)]%Q).
    vm_compute. reflexivity.
  - apply (Hnext (Q_sub_mono (4 # 100)%Q) ltac:(repeat constructor) _ _
             [LocalClock 0; PerfCounter (6 # 100); PerfCounter (7 # 100);
              PerfCounter (8 # 100); PerfCounter (9 # 100);
              PerfCounter (10 # 100)]%Q).
    vm_compute. reflexivity.
Defined.

(** The same schedule in binary64, the arithmetic of the program: the poll
    that follows the update comes after the reading 0.04. *)
Example pacing_binary64 :
  trace (final_store
    (main 4 1 0.04%float 2
       (Env [([], []); ([[1]], [1]); ([[2]], [2])]%float [0; 0; 0; 0]%float
            [0; 0; 0]%float
            [0; 0.01; 0.02; 0.03; 0.04; 0.05; 0.06]%float)))
  = [TimeCorrection 0; Polled 0; PerfCounter 0; Polled 1; LocalClock 0;
     TimeCorrection 0; Appended; LocalClock 0; PerfCounter 0.01;
     PerfCounter 0.02; PerfCounter 0.03; PerfCounter 0.04;
     PerfCounter 0.05]%float
  /\ ltb (sub 0.03%float 0%float) 0.04%float = true
  /\ ltb (sub 0.04%float 0%float) 0.04%float = false.
Proof. repeat split; reflexivity. Qed.

(** A chunk on the first poll; and, after an empty first poll, a chunk that
    is too wide, whose [ValueError] is no [NameError]. *)
Lemma old_time_unbound_on_first_poll_witness :
  (exists w,
      main 4 1 0.04%float 1
        (Env [([[5]; [6]], [7; 8])]%float [1; 2]%float [0.1; 0.1]%float
             [0]%float)
      = Raise UnboundLocalError w
      /\ is_NameError UnboundLocalError = true
      /\ old_time w = None
      /\ trace w = [TimeCorrection 0.1; Polled 2; LocalClock 1;
                    TimeCorrection 0.1; Appended; LocalClock 2;
                    PerfCounter 0]%float)
  /\ is_NameError ValueError = false.
Proof.
  split.
  - apply (proj1 (old_time_unbound_on_first_poll 4 1 0.04%float 1
                    (Env [([[5]; [6]], [7; 8])]%float [1; 2]%float
                         [0.1; 0.1]%float [0]%float))
             _ _ _ _ _ _ _ _ _ _ _ _ eq_refl);
      [repeat constructor | reflexivity | simpl; lia | lia].
  - eapply (proj2 (proj2 (old_time_unbound_on_first_poll 4 1 0.04%float 2
                    (Env [([], []); ([[1; 2; 3]], [4])]%float [1; 2]%float
                         [0.1; 0.1]%float [0; 0.05]%float)))
              [] [([[1; 2; 3]], [4])]%float ValueError _ eq_refl).
    vm_compute. reflexivity.
Defined.

(** * Further properties *)

(** ** Shapes *)

Section Shapes.
Context {F : Type}.

Lemma broadcast2_shape m c src (new : list (list F)) :
  broadcast2 m c src = Some new ->
  length new = m /\ Forall (fun r => length r = c) new.
Proof.
  destruct src as [x|xs|a]; unfold broadcast2.
  - intros [= <-]. split; [apply length_replicate|].
    apply Forall_replicate, length_replicate.
  - destruct (broadcast1 c (Vec xs)) as [r|] eqn:E; simpl; [|done].
    intros [= <-]. split; [apply length_replicate|].
    apply Forall_replicate. by apply broadcast1_length in E.
  - destruct (_ && _); [|done].
    destruct (mapM _ (rows a)) as [rs|] eqn:E; simpl; [|done].
    apply mapM_Some in E.
    assert (Hrs : Forall (fun r => length r = c) rs).
    { clear -E. induction E as [|r r' l l' Hr _ IH]; constructor; [|done].
      by apply broadcast1_length in Hr. }
    destruct (Nat.eqb_spec (length (rows a)) m) as [Hm|Hm].
    + intros [= <-]. split; [|done]. apply Forall2_length in E. lia.
    + destruct rs as [|r [|]]; try done. intros [= <-].
      split; [apply length_replicate|].
      apply Forall_replicate. by apply Forall_inv in Hrs.
Qed.

Lemma wf_intro b c (rs : list (list F)) :
  length rs = b -> Forall (fun r => length r = c) rs -> wf b c (Matrix c rs).
Proof. by repeat split. Qed.

(** Whatever the arguments and whatever the outcome, the run leaves both
    buffers with the shape they had. *)
Lemma getRingbufferValues_shape b c (d tsb : matrix F) chunk timestamps clt off :
  wf b c d -> wf b 3 tsb ->
  let s' := final_store
              (getRingbufferValues chunk timestamps clt off (Buffers d tsb)) in
  wf b c (data_buffer s') /\ wf b 3 (timestamp_buffer s').
Proof.
  intros Hd Ht. pose proof Hd as (Hdc & Hdb & Hdw).
  pose proof Ht as (Htc & Htb & Htw). cbn zeta.
  destruct (np_array2 chunk) as [e|cc] eqn:Ecc.
  { unfold getRingbufferValues, bind. by rewrite Ecc. }
  assert (Hn : shape0 cc = inr (length chunk)).
  { destruct (np_array2_inv _ _ Ecc) as [[-> ->]|(w & _ & _ & ->)]; done. }
  rewrite (getRingbufferValues_run b c d tsb chunk cc (length chunk)
             timestamps clt off Hd Ht Ecc Hn).
  set (n := length chunk).
  destruct (broadcast2 _ c cc) as [new|] eqn:Enew.
  - apply broadcast2_shape in Enew as [Hnl Hnw]. cbn zeta.
    assert (Hd' : wf b c (Matrix c (drop n (rows d) ++ new))).
    { apply wf_intro.
      - rewrite length_app, length_drop. lia.
      - apply Forall_app. split; [by apply Forall_drop|done]. }
    destruct (broadcast1 _ (Vec timestamps)) as [tv|] eqn:Etv;
      cbn [final_store data_buffer timestamp_buffer]; (split; [done|]).
    + apply broadcast1_length in Etv. apply wf_intro.
      * rewrite length_app, length_drop, length_map. lia.
      * apply Forall_app. split; [by apply Forall_drop|].
        apply Forall_map. by apply Forall_true.
    + apply wf_intro.
      * rewrite length_app, length_put_col, length_take, length_drop; [lia|].
        rewrite length_column, length_take, !length_drop; [lia|].
        apply Forall_drop. eapply Forall_impl; [exact Htw|].
        simpl. intros r ->. lia.
      * apply Forall_app. split; [|by apply Forall_drop].
        apply put_col_width. by apply Forall_take.
  - cbn [final_store data_buffer timestamp_buffer]. split; [|done].
    apply wf_intro.
    + rewrite length_app, !length_drop. lia.
    + apply Forall_app. split; by apply Forall_drop.
Qed.

End Shapes.

(** X1. On buffers of shapes [(b, c)] and [(b, 3)], no sequence of calls of
    [getRingbufferValues] ever changes a shape: whatever the chunks and the
    timestamps are, and whether the calls return or one of them raises, the
    data buffer still has [b] rows of [c] entries and the timestamp buffer
    [b] rows of 3 entries. *)
Theorem buffers_keep_their_shape {F : Type} (b c : nat)
    (calls : list (append_call F)) (d tsb : matrix F) :
  wf b c d -> wf b 3 tsb ->
  let s' := final_store (appends calls (Buffers d tsb)) in
  wf b c (data_buffer s') /\ wf b 3 (timestamp_buffer s').
Proof.
  revert d tsb. induction calls as [|[[[chunk timestamps] clt] off] calls IH];
    intros d tsb Hd Ht; [done|].
  cbn [appends]. unfold bind.
  pose proof (getRingbufferValues_shape b c d tsb chunk timestamps clt off Hd Ht)
    as Hs. cbn zeta in Hs.
  destruct (getRingbufferValues _ _ _ _ _) as [[] [d' tsb']|e s1|s1];
    [|done|done].
  destruct Hs as [Hd' Ht']. by apply IH.
Qed.

(** ** The sliding window *)

Section Window.
Context {F : Type}.

Lemma window_all {A} b (l : list A) : length l = b -> window b l = l.
Proof. intros <-. unfold window. by rewrite Nat.sub_diag. Qed.

Lemma window_shift {A} b n (l x : list A) :
  n <= length l -> b + n <= length l + length x ->
  window b (drop n l ++ x) = window b (l ++ x).
Proof.
  intros Hn Hb. unfold window.
  rewrite !length_app, length_drop.
  replace (length l + length x - b)
    with (n + (length l - n + length x - b)) by lia.
  rewrite <- drop_drop. f_equal. by rewrite drop_app_le.
Qed.

Lemma valid_call_run b c (d tsb : matrix F) chunk timestamps clt off :
  wf b c d -> wf b 3 tsb -> valid_chunk b c chunk timestamps ->
  getRingbufferValues chunk timestamps clt off (Buffers d tsb)
  = Ret tt (Buffers (Matrix c (drop (length chunk) (rows d) ++ chunk))
              (Matrix 3 (drop (length chunk) (rows tsb)
                         ++ map (fun t => [t; clt; off]) timestamps))).
Proof.
  intros Hd Ht (Hn & Hw & Hts).
  by apply (getRingbufferValues_valid b c (length chunk)).
Qed.

Lemma valid_call_wf b c (d tsb : matrix F) chunk timestamps (clt off : F) :
  wf b c d -> wf b 3 tsb -> valid_chunk b c chunk timestamps ->
  wf b c (Matrix c (drop (length chunk) (rows d) ++ chunk))
  /\ wf b 3 (Matrix 3 (drop (length chunk) (rows tsb)
                       ++ map (fun t => [t; clt; off]) timestamps)).
Proof.
  intros Hd Ht Hv.
  pose proof (getRingbufferValues_shape b c d tsb chunk timestamps clt off
                Hd Ht) as Hs.
  cbn zeta in Hs. by rewrite (valid_call_run b c) in Hs.
Qed.

End Window.

(** X2. The buffers are a sliding window over everything appended.  After
    any sequence of valid calls (each chunk of [1 .. b] rows of width [c],
    with as many timestamps), the call returns, the data buffer holds the
    last [b] rows of its former rows followed by all the chunks in order, and
    the timestamp buffer the last [b] of its former rows followed by all the
    time records [[t; current_local_time; timestamp_offset]] in order. *)
Theorem appends_are_a_sliding_window {F : Type} (b c : nat)
    (calls : list (append_call F)) (d tsb : matrix F) :
  wf b c d -> wf b 3 tsb -> Forall (valid_call b c) calls ->
  appends calls (Buffers d tsb)
  = Ret tt
      (Buffers
         (Matrix c (window b (rows d ++ concat (map chunk_of calls))))
         (Matrix 3 (window b (rows tsb ++ concat (map records_of calls))))).
Proof.
  intros Hd Ht Hcalls. revert d tsb Hd Ht.
  induction Hcalls as [|[[[chunk timestamps] clt] off] calls Hv _ IH];
    intros d tsb Hd Ht.
  - simpl. rewrite !app_nil_r.
    destruct Hd as (Hdc & Hdb & _), Ht as (Htc & Htb & _).
    rewrite !window_all by done. unfold ret. by rewrite !matrix_eta.
  - cbn [appends]. unfold bind. unfold valid_call in Hv. cbn in Hv.
    rewrite (valid_call_run b c) by done.
    destruct (valid_call_wf b c d tsb chunk timestamps clt off Hd Ht Hv)
      as [Hd' Ht'].
    rewrite IH by done. cbn [rows map concat chunk_of records_of fst].
    destruct Hv as (Hn & Hw & Hts).
    destruct Hd as (_ & Hdb & _), Ht as (_ & Htb & _).
    rewrite <- !app_assoc.
    rewrite !window_shift; try done; try lia.
    + rewrite Htb, length_app, length_map. lia.
    + rewrite Hdb, length_app. lia.
Qed.

(** X3. Batching.  When two valid chunks fit the buffer together
    ([n1 + n2 <= b]) and carry the same local time and offset, appending them
    one after the other leaves exactly the buffers that one call with the
    concatenated chunk and timestamps leaves. *)
Theorem two_appends_equal_one {F : Type} (b c : nat) (d tsb : matrix F)
    (chunk1 chunk2 : list (list F)) (timestamps1 timestamps2 : list F)
    (clt off : F) :
  wf b c d -> wf b 3 tsb ->
  valid_chunk b c chunk1 timestamps1 -> valid_chunk b c chunk2 timestamps2 ->
  length chunk1 + length chunk2 <= b ->
  (do getRingbufferValues chunk1 timestamps1 clt off ;;
   getRingbufferValues chunk2 timestamps2 clt off) (Buffers d tsb)
  = getRingbufferValues (chunk1 ++ chunk2) (timestamps1 ++ timestamps2)
      clt off (Buffers d tsb).
Proof.
  intros Hd Ht Hv1 Hv2 Hfit. unfold bind.
  rewrite (valid_call_run b c d tsb chunk1) by done.
  destruct (valid_call_wf b c d tsb chunk1 timestamps1 clt off Hd Ht Hv1)
    as [Hd' Ht'].
  rewrite (valid_call_run b c _ _ chunk2) by done. cbn [rows].
  assert (Hv : valid_chunk b c (chunk1 ++ chunk2) (timestamps1 ++ timestamps2)).
  { destruct Hv1 as (Hn1 & Hw1 & Hts1), Hv2 as (Hn2 & Hw2 & Hts2).
    repeat split.
    - rewrite length_app. lia.
    - rewrite length_app. lia.
    - by apply Forall_app.
    - rewrite !length_app. lia. }
  rewrite (valid_call_run b c d tsb (chunk1 ++ chunk2)) by done.
  destruct Hd as (_ & Hdb & _), Ht as (_ & Htb & _).
  destruct Hv1 as (Hn1 & _ & Hts1), Hv2 as (Hn2 & _ & Hts2).
  rewrite !drop_app_le by (rewrite length_drop; lia).
  rewrite !drop_drop, length_app, map_app, <- !app_assoc. done.
Qed.

(** ** Broadcast chunks *)

Section Broadcast.
Context {F : Type}.

Lemma mapM_broadcast1_single c (xs : list F) :
  mapM (fun r => broadcast1 c (Vec r)) (map (fun x => [x]) xs)
  = Some (map (fun x => replicate c x) xs).
Proof.
  apply mapM_Some. induction xs as [|x xs IH]; cbn [map]; constructor; [|done].
  unfold broadcast1. cbn [length]. by destruct (Nat.eqb_spec 1 c) as [<-|].
Qed.

Lemma broadcast2_single n c (xs : list F) :
  length xs = n ->
  broadcast2 n c (Mat (Matrix 1 (map (fun x => [x]) xs)))
  = Some (map (fun x => replicate c x) xs).
Proof.
  intros <-. unfold broadcast2. cbn [ncols rows].
  rewrite length_map, !Nat.eqb_refl, orb_true_r. cbn [andb orb].
  by rewrite mapM_broadcast1_single.
Qed.

Lemma broadcast1_single n (t : F) :
  broadcast1 n (Vec [t]) = Some (replicate n t).
Proof.
  unfold broadcast1. cbn [length]. by destruct (Nat.eqb_spec 1 n) as [<-|].
Qed.

End Broadcast.

(** X4. A chunk whose samples have a single value each is accepted by a
    buffer of any number of channels: with [n] such samples ([0 < n <= b])
    and [n] timestamps the call returns, and the last [n] rows of the data
    buffer hold each sample's value repeated in all [c] channels. *)
Theorem narrow_samples_fill_every_channel {F : Type} (b c : nat)
    (d tsb : matrix F) (xs timestamps : list F) (clt off : F) :
  wf b c d -> wf b 3 tsb ->
  0 < length xs <= b -> length timestamps = length xs ->
  getRingbufferValues (map (fun x => [x]) xs) timestamps clt off (Buffers d tsb)
  = Ret tt
      (Buffers
         (Matrix c (drop (length xs) (rows d)
                    ++ map (fun x => replicate c x) xs))
         (Matrix 3 (drop (length xs) (rows tsb)
                    ++ map (fun t => [t; clt; off]) timestamps))).
Proof.
  intros Hd Ht Hn Hts.
  assert (Hne : map (fun x : F => [x]) xs <> []).
  { destruct xs; [simpl in Hn; lia|done]. }
  assert (Hw : Forall (fun r : list F => length r = 1) (map (fun x => [x]) xs)).
  { apply Forall_map. by apply Forall_true. }
  rewrite (getRingbufferValues_run b c d tsb _ _ (length xs) timestamps clt off
             Hd Ht (np_array2_rect _ 1 Hne Hw))
    by (by rewrite shape0_mat, length_map).
  replace (b - (b - length xs)) with (length xs) by lia.
  rewrite broadcast2_single by done. cbn zeta.
  by rewrite broadcast1_same.
Qed.

(** X5. A single timestamp is accepted for a chunk of any length: with a
    valid chunk of [n] samples and the one timestamp [t] the call returns,
    and each of the [n] new time records is [[t; current_local_time;
    timestamp_offset]]. *)
Theorem single_timestamp_is_shared {F : Type} (b c : nat) (d tsb : matrix F)
    (chunk : list (list F)) (t clt off : F) :
  wf b c d -> wf b 3 tsb ->
  0 < length chunk <= b -> Forall (fun r => length r = c) chunk ->
  getRingbufferValues chunk [t] clt off (Buffers d tsb)
  = Ret tt
      (Buffers (Matrix c (drop (length chunk) (rows d) ++ chunk))
         (Matrix 3 (drop (length chunk) (rows tsb)
                    ++ replicate (length chunk) [t; clt; off]))).
Proof.
  intros Hd Ht Hn Hw.
  assert (Hne : chunk <> []) by (intros ->; simpl in Hn; lia).
  rewrite (getRingbufferValues_run b c d tsb chunk _ (length chunk) [t] clt off
             Hd Ht (np_array2_rect chunk c Hne Hw)) by apply shape0_mat.
  replace (b - (b - length chunk)) with (length chunk) by lia.
  rewrite broadcast2_same by done. cbn zeta.
  rewrite broadcast1_single. by rewrite fmap_replicate.
Qed.

(** ** The report *)

(** X7. [sendDetectedError] needs three values: on a row with fewer than
    three entries it raises [IndexError] and sends nothing; on a longer row
    it sends the report computed from the first three entries, whatever
    follows them. *)
Theorem report_needs_three_values {F : Type} {N : Number F}
    (team_name secret_id : string) (vals : list F) (local_clock_time : F) :
  (length vals < 3 ->
   sendDetectedError team_name secret_id vals local_clock_time
   = inl IndexError)
  /\ (forall v0 v1 v2 more, vals = v0 :: v1 :: v2 :: more ->
      sendDetectedError team_name secret_id vals local_clock_time
      = inr (Post url (Report team_name secret_id v0
                         (sub local_clock_time v1) (sub (sub v1 v0) v2)))).
Proof.
  split.
  - intros Hl. destruct vals as [|v0 [|v1 [|v2 more]]]; try done.
    simpl in Hl. lia.
  - by intros v0 v1 v2 more ->.
Qed.

(** X8. Reporting a sample that the last append wrote.  After a valid append
    with local time [clt] and offset [off], every row [i >= b - n] of the
    timestamp buffer, passed to [sendDetectedError], gives the report with
    the sample's source timestamp [t], [comm_delay = (clt - t) - off] and
    [comp_time = local_clock_time - clt]. *)
Theorem report_of_an_appended_sample {F : Type} {N : Number F} (b c : nat)
    (d tsb : matrix F) (chunk : list (list F)) (timestamps : list F)
    (clt off : F) (team_name secret_id : string) (local_clock_time : F)
    (i : nat) (t : F) :
  wf b c d -> wf b 3 tsb -> valid_chunk b c chunk timestamps ->
  b - length chunk <= i ->
  timestamps !! (i - (b - length chunk)) = Some t ->
  exists s' row,
    getRingbufferValues chunk timestamps clt off (Buffers d tsb) = Ret tt s'
    /\ rows (timestamp_buffer s') !! i = Some row
    /\ sendDetectedError team_name secret_id row local_clock_time
       = inr (Post url (Report team_name secret_id t
                          (sub local_clock_time clt) (sub (sub clt t) off))).
Proof.
  intros Hd Ht Hv Hi Hts. eexists. exists [t; clt; off].
  split; [by apply (valid_call_run b c)|]. split; [|done].
  cbn [timestamp_buffer rows]. destruct Ht as (_ & Htb & _).
  destruct Hv as (Hn & _ & _).
  rewrite lookup_app_r by (rewrite length_drop; lia).
  rewrite length_drop, Htb, list_lookup_fmap, Hts. done.
Qed.

(** ** A timestamp buffer that is too narrow *)

Section Narrow.
Context {F : Type}.

(** The data part of the function (lines 43-48) on a valid chunk, whatever
    the timestamp buffer is. *)
Lemma getRingbufferValues_data_part b c (d tsb : matrix F) chunk timestamps
    clt off :
  wf b c d -> valid_chunk b c chunk timestamps ->
  getRingbufferValues chunk timestamps clt off (Buffers d tsb)
  = (do shift_column (length chunk) 0 (Vec timestamps) ;;
     do shift_column (length chunk) 1 (Scalar clt) ;;
     shift_column (length chunk) 2 (Scalar off))
      (Buffers (Matrix c (drop (length chunk) (rows d) ++ chunk)) tsb).
Proof.
  intros Hd (Hn & Hw & Hts). pose proof Hd as (Hdc & Hdb & Hdw).
  assert (Hne : chunk <> []) by (intros ->; simpl in Hn; lia).
  set (n := length chunk) in *.
  unfold getRingbufferValues. unfold bind at 1.
  rewrite (np_array2_rect chunk c Hne Hw). cbn [lift ret].
  unfold bind at 1. rewrite shape0_mat. cbn [lift ret]. fold n.
  unfold bind at 1. cbn [gets data_buffer].
  unfold bind at 1. unfold assign_data at 1. cbn [data_buffer timestamp_buffer].
  rewrite (setitem_rows_shift n b c d Hd).
  unfold bind at 1. unfold assign_data at 1. cbn [data_buffer timestamp_buffer].
  cbn [rows_from rows]. rewrite length_drop, Hdb.
  rewrite (setitem_rows_tail (b - n) b c); cbn [ncols rows]; try done; try lia.
  2:{ rewrite length_app, !length_drop. lia. }
  replace (b - (b - n)) with n by lia.
  rewrite broadcast2_same by done.
  rewrite (data_rows_written n b) by done. reflexivity.
Qed.

Lemma shift_column_out n j new (d tsb : matrix F) :
  ncols tsb <= j ->
  shift_column n j new (Buffers d tsb) = Raise IndexError (Buffers d tsb).
Proof.
  intros Hj. unfold shift_column, bind, col_from. cbn [timestamp_buffer].
  by destruct (Nat.ltb_spec j (ncols tsb)); [lia|].
Qed.

Lemma shift_column_wf n j new b c (d tsb : matrix F) s' :
  wf b c tsb -> j < c ->
  shift_column n j new (Buffers d tsb) = Ret tt s' ->
  data_buffer s' = d /\ wf b c (timestamp_buffer s').
Proof.
  intros Ht Hj. rewrite (shift_column_run n j new b c d tsb Ht Hj).
  destruct (broadcast1 _ new) as [vals|] eqn:E; [|done].
  intros [= <-]. split; [done|]. cbn [timestamp_buffer].
  apply broadcast1_length in E. destruct Ht as (Htc & Htb & Htw).
  apply wf_intro.
  - rewrite length_put_col; [done|].
    rewrite length_app, length_column, length_drop; [lia|].
    apply Forall_drop. eapply Forall_impl; [exact Htw|]. simpl. intros r ->. lia.
  - by apply put_col_width.
Qed.

Lemma shift_column_returns n j b c (d tsb : matrix F) new :
  wf b c tsb -> j < c -> is_Some (broadcast1 (b - (b - n)) new) ->
  exists s', shift_column n j new (Buffers d tsb) = Ret tt s'.
Proof.
  intros Ht Hj [vals E]. rewrite (shift_column_run n j new b c d tsb Ht Hj), E.
  by eexists.
Qed.

End Narrow.

(** X6. The timestamp buffer must have three columns.  With a valid chunk
    and a timestamp buffer of [b] rows but fewer than three columns, the call
    raises [IndexError]; by then the chunk has been written to the data
    buffer, and the timestamp buffer still has its shape. *)
Theorem narrow_timestamp_buffer_raises {F : Type} (b c ct : nat)
    (d tsb : matrix F) (chunk : list (list F)) (timestamps : list F)
    (clt off : F) :
  wf b c d -> wf b ct tsb -> ct < 3 -> valid_chunk b c chunk timestamps ->
  exists s',
    getRingbufferValues chunk timestamps clt off (Buffers d tsb)
    = Raise IndexError s'
    /\ data_buffer s' = Matrix c (drop (length chunk) (rows d) ++ chunk)
    /\ wf b ct (timestamp_buffer s').
Proof.
  intros Hd Ht Hct Hv. rewrite (getRingbufferValues_data_part b c) by done.
  pose proof Ht as (Htc & _ & _). pose proof Hv as (Hn & _ & Hts).
  set (d' := Matrix c _).
  assert (H0 : is_Some (broadcast1 (b - (b - length chunk)) (Vec timestamps))).
  { rewrite broadcast1_same; [done|lia]. }
  destruct ct as [|[|[|ct]]]; [| | |clear -Hct; lia].
  - unfold bind. rewrite shift_column_out by lia. by eexists.
  - unfold bind at 1.
    destruct (shift_column_returns (length chunk) 0 b 1 d' tsb _ Ht
                ltac:(lia) H0) as [[d1 t1] E1].
    rewrite E1.
    destruct (shift_column_wf (length chunk) 0 _ b 1 d' tsb _ Ht
                ltac:(lia) E1) as [Hd1 Ht1].
    cbn [data_buffer timestamp_buffer] in Hd1, Ht1. rewrite Hd1.
    unfold bind. rewrite shift_column_out by (destruct Ht1 as [-> _]; lia).
    by eexists.
  - unfold bind at 1.
    destruct (shift_column_returns (length chunk) 0 b 2 d' tsb _ Ht
                ltac:(lia) H0) as [[d1 t1] E1].
    rewrite E1.
    destruct (shift_column_wf (length chunk) 0 _ b 2 d' tsb _ Ht
                ltac:(lia) E1) as [Hd1 Ht1].
    cbn [data_buffer timestamp_buffer] in Hd1, Ht1. rewrite Hd1.
    unfold bind at 1.
    destruct (shift_column_returns (length chunk) 1 b 2 d' t1 (Scalar clt) Ht1
                ltac:(lia) ltac:(done)) as [[d2 t2] E2].
    rewrite E2.
    destruct (shift_column_wf (length chunk) 1 _ b 2 d' t1 _ Ht1
                ltac:(lia) E2) as [Hd2 Ht2].
    cbn [data_buffer timestamp_buffer] in Hd2, Ht2. rewrite Hd2.
    rewrite shift_column_out by (destruct Ht2 as [-> _]; lia).
    by eexists.
Qed.

(** ** The busy wait *)

Section BusyWait.
Context {F : Type} `{Number F}.
Implicit Types (w : world F).

Lemma busy_wait_exits dt o rs r rest fuel w :
  old_time w = Some o ->
  perf_counter (script w) = rs ++ r :: rest ->
  Forall (fun x => ltb (sub x o) dt = true) rs ->
  ltb (sub r o) dt = false ->
  length rs < fuel ->
  busy_wait dt fuel w
  = Ret tt
      (World (bufs w) (timestamp_offset w) (local_clock_time w) (Some o)
         (Env (pull_chunk (script w)) (local_clock (script w))
              (time_correction (script w)) rest)
         (trace w ++ map PerfCounter (rs ++ [r]))).
Proof.
  intros Ho Hps Hrs Hr. revert fuel w Ho Hps.
  induction Hrs as [|x rs Hx _ IH]; intros fuel w Ho Hps Hfuel.
  - destruct fuel as [|fuel]; [simpl in Hfuel; lia|].
    cbn [busy_wait]. unfold call_perf_counter, call, bind, gets, load.
    rewrite Hps. cbn. rewrite Ho, Hr. reflexivity.
  - destruct fuel as [|fuel]; [simpl in Hfuel; lia|].
    cbn [busy_wait]. unfold call_perf_counter, call, bind, gets, load.
    rewrite Hps. cbn. rewrite Ho, Hx.
    rewrite IH; cbn; try done; [|simpl in Hfuel; lia].
    by rewrite <- app_assoc.
Qed.

Lemma busy_wait_starves dt o fuel w :
  old_time w = Some o ->
  Forall (fun x => ltb (sub x o) dt = true) (perf_counter (script w)) ->
  length (perf_counter (script w)) < fuel ->
  busy_wait dt fuel w
  = Starved
      (World (bufs w) (timestamp_offset w) (local_clock_time w) (Some o)
         (Env (pull_chunk (script w)) (local_clock (script w))
              (time_correction (script w)) [])
         (trace w ++ map PerfCounter (perf_counter (script w)))).
Proof.
  intros Ho Hrs. remember (perf_counter (script w)) as ps eqn:Hps.
  revert fuel w Ho Hps.
  induction Hrs as [|x rs Hx _ IH]; intros fuel w Ho Hps Hfuel.
  - destruct fuel as [|fuel]; [simpl in Hfuel; lia|].
    cbn [busy_wait]. unfold call_perf_counter, call, bind, gets.
    rewrite <- Hps. cbn. rewrite app_nil_r.
    destruct w as [bf to lt ot [pc lc tc pf] tr]. cbn in *. by subst.
  - destruct fuel as [|fuel]; [simpl in Hfuel; lia|].
    cbn [busy_wait]. unfold call_perf_counter, call, bind, gets, load.
    rewrite <- Hps. cbn. rewrite Ho, Hx.
    rewrite IH; cbn; try done; [|simpl in Hfuel; lia].
    by rewrite <- app_assoc.
Qed.

Lemma throttle_exits dt o rs r rest w :
  old_time w = Some o ->
  perf_counter (script w) = rs ++ r :: rest ->
  Forall (fun x => ltb (sub x o) dt = true) rs ->
  ltb (sub r o) dt = false ->
  throttle dt w
  = Ret tt
      (World (bufs w) (timestamp_offset w) (local_clock_time w) (Some o)
         (Env (pull_chunk (script w)) (local_clock (script w))
              (time_correction (script w)) rest)
         (trace w ++ map PerfCounter (rs ++ [r]))).
Proof.
  intros Ho Hps Hrs Hr. unfold throttle, bind, gets.
  apply busy_wait_exits; try done. rewrite Hps, length_app. simpl. lia.
Qed.

End BusyWait.

(** X9. The busy wait of lines 168-169, with [old_time] bound to [o]: it
    reads the clock until the first reading [r] with [not (r - o < dt)],
    consuming exactly the readings up to and including [r] and nothing else;
    the buffers and the other variables are untouched.  When no reading of
    the script reaches [dt], it consumes them all and never leaves the
    loop. *)
Theorem busy_wait_stops_at_first_late_reading {F : Type} {N : Number F}
    (dt_read_buffer o : F) (w : world F) :
  old_time w = Some o ->
  (forall rs r rest,
      perf_counter (script w) = rs ++ r :: rest ->
      Forall (fun x => ltb (sub x o) dt_read_buffer = true) rs ->
      ltb (sub r o) dt_read_buffer = false ->
      throttle dt_read_buffer w
      = Ret tt
          (World (bufs w) (timestamp_offset w) (local_clock_time w) (Some o)
             (Env (pull_chunk (script w)) (local_clock (script w))
                  (time_correction (script w)) rest)
             (trace w ++ map PerfCounter (rs ++ [r]))))
  /\ (Forall (fun x => ltb (sub x o) dt_read_buffer = true)
        (perf_counter (script w)) ->
      throttle dt_read_buffer w
      = Starved
          (World (bufs w) (timestamp_offset w) (local_clock_time w) (Some o)
             (Env (pull_chunk (script w)) (local_clock (script w))
                  (time_correction (script w)) [])
             (trace w ++ map PerfCounter (perf_counter (script w))))).
Proof.
  intros Ho. split.
  - intros rs r rest Hps Hrs Hr. by apply throttle_exits.
  - intros Hrs. unfold throttle, bind, gets.
    apply busy_wait_starves; try done. lia.
Qed.

(** ** One iteration of the loop *)

Section Iteration.
Context {F : Type} `{Number F}.

Ltac step :=
  cbv -[while_running getRingbufferValues throttle np_zeros length app drop
        map is_NameError].

Lemma loop_body_chunk dt bf to lt o row chunk ts polls l0 ls c1 cs ps tr :
  loop_body dt
    (World bf to lt o (Env ((row :: chunk, ts) :: polls) (l0 :: ls)
                           (c1 :: cs) ps) tr)
  = match getRingbufferValues (row :: chunk) ts l0 c1 bf with
    | Ret _ bf' =>
        (t <- call_local_clock ;;
         do set_local_clock_time t ;;
         do throttle dt ;;
         t <- call_perf_counter ;;
         set_old_time t)
          (World bf' (Some c1) lt o (Env polls ls cs ps)
             (tr ++ [Polled (S (length chunk)); LocalClock l0;
                     TimeCorrection c1; Appended]))
    | Raise e bf' =>
        Raise e (World bf' (Some c1) lt o (Env polls ls cs ps)
                   (tr ++ [Polled (S (length chunk)); LocalClock l0;
                           TimeCorrection c1]))
    | Starved bf' =>
        Starved (World bf' (Some c1) lt o (Env polls ls cs ps)
                   (tr ++ [Polled (S (length chunk)); LocalClock l0;
                           TimeCorrection c1]))
    end.
Proof.
  step. destruct (getRingbufferValues _ _ _ _ _) as [[] bf'|e bf'|bf'].
  - step. destruct ls; by rewrite <- !app_assoc.
  - by rewrite <- !app_assoc.
  - by rewrite <- !app_assoc.
Qed.

End Iteration.

(** X10. One iteration in steady state.  With [old_time] bound to [o], valid
    buffers and a valid chunk from the poll, the iteration returns: the chunk
    is appended with the [local_clock()] reading [l0] taken before the append
    and the time correction [c1] queried in this iteration; the second
    [local_clock()] reading only goes to [local_clock_time]; the busy wait
    takes the readings up to the first [r] with [not (r - o < dt)]; and the
    next reading [t] becomes [old_time]. *)
Theorem iteration_with_a_chunk {F : Type} {N : Number F} (b c : nat)
    (dt_read_buffer o : F) (d tsb : matrix F) (to lt : option F)
    (row : list F) (chunk : list (list F)) (ts : list F)
    (polls : list (list (list F) * list F)) (l0 l1 : F) (ls : list F)
    (c1 : F) (cs rs : list F) (r t : F) (ps : list F)
    (tr : list (event F)) :
  wf b c d -> wf b 3 tsb -> valid_chunk b c (row :: chunk) ts ->
  Forall (fun x => ltb (sub x o) dt_read_buffer = true) rs ->
  ltb (sub r o) dt_read_buffer = false ->
  loop_body dt_read_buffer
    (World (Buffers d tsb) to lt (Some o)
       (Env ((row :: chunk, ts) :: polls) (l0 :: l1 :: ls) (c1 :: cs)
            (rs ++ r :: t :: ps)) tr)
  = Ret tt
      (World
         (Buffers
            (Matrix c (drop (S (length chunk)) (rows d) ++ row :: chunk))
            (Matrix 3 (drop (S (length chunk)) (rows tsb)
                       ++ map (fun x => [x; l0; c1]) ts)))
         (Some c1) (Some l1) (Some t) (Env polls ls cs ps)
         (tr ++ [Polled (S (length chunk)); LocalClock l0; TimeCorrection c1;
                 Appended; LocalClock l1]
             ++ map PerfCounter (rs ++ [r]) ++ [PerfCounter t])).
Proof.
  intros Hd Ht Hv Hrs Hr. rewrite loop_body_chunk.
  rewrite (valid_call_run b c) by done.
  cbv -[throttle length app drop map rows].
  rewrite (throttle_exits dt_read_buffer o rs r (t :: ps)) by done.
  cbv -[length app drop map rows]. by rewrite <- !app_assoc.
Qed.

(** X12. An exception of the append is not caught.  When
    [getRingbufferValues] raises on the polled chunk, the loop stops at once
    with that exception: the buffers are as the failed call left them, no
    [Appended] is logged, [old_time] and [local_clock_time] keep their
    values, and the rest of the stream is never polled. *)
Theorem append_error_stops_the_loop {F : Type} {N : Number F}
    (dt_read_buffer : F) (k : nat) (bf bf' : buffers F) (to lt o : option F)
    (row : list F) (chunk : list (list F)) (ts : list F)
    (polls : list (list (list F) * list F)) (l0 : F) (ls : list F)
    (c1 : F) (cs ps : list F) (tr : list (event F)) (e : exn) :
  getRingbufferValues (row :: chunk) ts l0 c1 bf = Raise e bf' ->
  while_running dt_read_buffer (S k)
    (World bf to lt o
       (Env ((row :: chunk, ts) :: polls) (l0 :: ls) (c1 :: cs) ps) tr)
  = Raise e
      (World bf' (Some c1) lt o (Env polls ls cs ps)
         (tr ++ [Polled (S (length chunk)); LocalClock l0; TimeCorrection c1])).
Proof.
  intros Hfail. cbn [while_running]. unfold bind at 1.
  by rewrite loop_body_chunk, Hfail.
Qed.

(** ** Invariants of the loop *)

Section LoopInvariants.
Context {F : Type} `{Number F}.
Implicit Types (w : world F).

Lemma hoare_conseq {S A} (P P' : S -> Prop) (m : M S A)
    (Q Q' : A -> S -> Prop) (X X' : option exn -> S -> Prop) :
  hoare P' m Q' X' ->
  (forall s, P s -> P' s) -> (forall a s, Q' a s -> Q a s) ->
  (forall oe s, X' oe s -> X oe s) ->
  hoare P m Q X.
Proof.
  intros Hm HP HQ HX s Hs. specialize (Hm s (HP s Hs)).
  destruct (m s); auto.
Qed.

Lemma hoare_and {S A} (P : S -> Prop) (m : M S A)
    (Q Q' : A -> S -> Prop) (X X' : option exn -> S -> Prop) :
  hoare P m Q X -> hoare P m Q' X' ->
  hoare P m (fun a s => Q a s /\ Q' a s) (fun oe s => X oe s /\ X' oe s).
Proof.
  intros Hm Hm' s Hs. specialize (Hm s Hs). specialize (Hm' s Hs).
  by destruct (m s).
Qed.

(** An environment call keeps what is known of the buffers. *)
Lemma hoare_call_frame {A} (I : world F -> Prop) (answers : env F -> list A)
    rest ev (X : option exn -> world F -> Prop) :
  (forall w a more, I w -> answers (script w) = a :: more ->
     I (World (bufs w) (timestamp_offset w) (local_clock_time w) (old_time w)
          (rest (script w) more) (trace w ++ [ev a]))) ->
  (forall w, I w -> X None w) ->
  hoare I (call answers rest ev) (fun _ => I) X.
Proof. intros HI HX. apply hoare_call; eauto. Qed.

Lemma busy_wait_shaped b c dt n :
  hoare (shaped b c) (busy_wait dt n) (fun _ => shaped b c) (shaped_stop b c).
Proof.
  induction n as [|n IH]; simpl; [by intros w Hw|].
  eapply hoare_bind.
  { apply (hoare_call_frame (shaped b c)); by intros. }
  intros now. eapply hoare_bind.
  { apply (hoare_load _ _ (fun _ => shaped b c)); by intros. }
  intros old. destruct (ltb _ _); [exact IH|]. by apply hoare_ret.
Qed.

Lemma loop_body_shaped b c dt :
  hoare (shaped b c) (loop_body dt) (fun _ => shaped b c) (shaped_stop b c).
Proof.
  unfold loop_body. eapply hoare_bind.
  { apply (hoare_call_frame (shaped b c)); by intros. }
  intros [chunk timestamps]. eapply (hoare_bind _ _ _ (fun _ => shaped b c)).
  { destruct chunk as [|row chunk]; [by apply hoare_ret|].
    eapply hoare_bind.
    { apply (hoare_call_frame (shaped b c)); by intros. }
    intros clt. eapply hoare_bind.
    { apply (hoare_call_frame (shaped b c)); by intros. }
    intros off. eapply hoare_bind.
    { by apply (hoare_modify _ _ (fun _ => shaped b c)). }
    intros ?. eapply hoare_bind.
    { apply (hoare_on_buffers _ _ (fun _ => shaped b c)).
      intros w [Hd Ht]. cbn zeta. destruct (bufs w) as [d tsb] eqn:Eb.
      cbn [data_buffer timestamp_buffer] in Hd, Ht.
      pose proof (getRingbufferValues_shape b c d tsb (row :: chunk)
                    timestamps clt off Hd Ht) as Hs. cbn zeta in Hs.
      by destruct (getRingbufferValues _ _ _ _ _) as [[] s1|x s1|s1]. }
    intros ?. eapply hoare_bind.
    { by apply (hoare_log _ _ (fun _ => shaped b c)). }
    intros ?. eapply hoare_bind.
    { apply (hoare_call_frame (shaped b c)); by intros. }
    intros t. eapply hoare_bind.
    { by apply (hoare_modify _ _ (fun _ => shaped b c)). }
    intros ?. unfold throttle. eapply hoare_bind.
    { by apply (hoare_gets _ _ (fun _ => shaped b c)). }
    intros e. apply busy_wait_shaped. }
  intros ?. eapply hoare_bind.
  { apply (hoare_call_frame (shaped b c)); by intros. }
  intros t. by apply hoare_modify.
Qed.

Lemma while_running_shaped b c dt n :
  hoare (shaped b c) (while_running dt n) (fun _ => shaped b c)
    (shaped_stop b c).
Proof.
  induction n as [|n IH]; simpl; [by apply hoare_ret|].
  eapply hoare_bind; [apply loop_body_shaped|]. intros ?. exact IH.
Qed.

End LoopInvariants.

(** X11. In every run of [main], however long, whatever the stream delivers
    and however the run ends (it returns, it stops with an exception of the
    append or of the throttle, or it is still waiting), both buffers have
    the shape they were allocated with: [buffer_size] rows of
    [channel_count] values and [buffer_size] rows of 3 values. *)
Theorem main_keeps_shapes {F : Type} {N : Number F}
    (buffer_size channel_count : nat) (dt_read_buffer : F) (iterations : nat)
    (e : env F) :
  shaped buffer_size channel_count
    (final_store (main buffer_size channel_count dt_read_buffer iterations e)).
Proof.
  unfold main.
  set (w0 := World _ _ _ _ _ _). set (prog := bind _ _).
  assert (Hprog : hoare (shaped buffer_size channel_count) prog
                    (fun _ => shaped buffer_size channel_count)
                    (shaped_stop buffer_size channel_count)).
  { subst prog. eapply hoare_bind.
    { apply (hoare_call_frame (shaped buffer_size channel_count)); by intros. }
    intros offset. eapply hoare_bind.
    { by apply (hoare_modify _ _ (fun _ => shaped buffer_size channel_count)). }
    intros ?. apply while_running_shaped. }
  assert (H0 : shaped buffer_size channel_count w0).
  { split; apply wf_np_zeros. }
  specialize (Hprog w0 H0). by destruct (prog w0) as [a w|x w|w].
Qed.

(** ** The window over the stream *)

Section StreamWindow.
Context {F : Type} `{Number F}.
Implicit Types (w : world F).

Lemma window_window {A} b (l x : list A) :
  b <= length l -> window b (window b l ++ x) = window b (l ++ x).
Proof.
  intros Hb. unfold window at 2. apply window_shift; lia.
Qed.

Lemma busy_wait_frame (I : world F -> Prop) dt n :
  (forall w t more, I w -> perf_counter (script w) = t :: more ->
     I (World (bufs w) (timestamp_offset w) (local_clock_time w) (old_time w)
          (Env (pull_chunk (script w)) (local_clock (script w))
               (time_correction (script w)) more)
          (trace w ++ [PerfCounter t]))) ->
  hoare I (busy_wait dt n) (fun _ => I) anything.
Proof.
  intros HI. induction n as [|n IH]; simpl; [done|].
  eapply hoare_bind.
  { apply (hoare_call_frame I); [|done]. intros w t more Hw E. by apply HI. }
  intros now. eapply hoare_bind.
  { by apply (hoare_load _ _ (fun _ => I)). }
  intros old. destruct (ltb _ _); [exact IH|]. by apply hoare_ret.
Qed.

Lemma windowed_append b c polls0 chunk timestamps clt off w :
  windowed_before b c polls0 chunk timestamps w ->
  exists bf',
    getRingbufferValues chunk timestamps clt off (bufs w) = Ret tt bf'
    /\ windowed b c polls0
         (World bf' (timestamp_offset w) (local_clock_time w) (old_time w)
            (script w) (trace w)).
Proof.
  intros ([Hd Ht] & Hacc & Hv & consumed & Hpolls & Hrows).
  destruct (bufs w) as [d tsb] eqn:Eb. cbn [data_buffer timestamp_buffer] in *.
  eexists. split; [by apply (valid_call_run b c)|].
  destruct (valid_call_wf b c d tsb chunk timestamps clt off Hd Ht Hv)
    as [Hd' Ht'].
  split; [by split|]. split; [done|]. cbn [bufs script data_buffer rows].
  exists (consumed ++ [(chunk, timestamps)]). split.
  { by rewrite <- app_assoc. }
  rewrite map_app, concat_app. cbn [map concat fst]. rewrite app_nil_r.
  destruct Hd as (_ & Hdb & _). destruct Hv as (Hn & _ & _).
  rewrite Hrows, app_assoc.
  rewrite <- (window_window b (_ ++ concat _) chunk)
    by (rewrite length_app, length_replicate; lia).
  set (W := window b _) in *.
  assert (HW : length W = b) by (by rewrite <- Hrows).
  rewrite <- (window_shift b (length chunk) W chunk) by lia.
  rewrite window_all; [done|]. rewrite length_app, length_drop. lia.
Qed.

Lemma loop_body_windowed b c polls0 dt :
  hoare (windowed b c polls0) (loop_body dt) (fun _ => windowed b c polls0)
    anything.
Proof.
  unfold loop_body. eapply hoare_bind.
  { apply (hoare_call _ _ _ _
             (fun r w => match r.1 with
                         | [] => windowed b c polls0 w
                         | _ :: _ => windowed_before b c polls0 r.1 r.2 w
                         end)); [done|].
    intros w [chunk ts] more (Hs & Hacc & consumed & Hpolls & Hrows) E.
    rewrite E in Hacc, Hpolls. apply Forall_cons in Hacc as [Hr Hacc].
    cbn [fst snd]. destruct chunk as [|row chunk].
    - split; [done|]. split; [done|]. exists (consumed ++ [([], ts)]).
      cbn [script pull_chunk bufs]. split; [by rewrite <- app_assoc|].
      rewrite map_app, concat_app. cbn. by rewrite !app_nil_r.
    - destruct Hr as [Hr|Hr]; [done|]. split; [done|]. split; [done|].
      split; [done|]. by exists consumed. }
  intros [chunk timestamps]. cbn [fst snd].
  eapply (hoare_bind _ _ _ (fun _ => windowed b c polls0)).
  { destruct chunk as [|row chunk]; [by apply hoare_ret|].
    set (I := windowed_before b c polls0 (row :: chunk) timestamps).
    eapply hoare_bind.
    { apply (hoare_call_frame I); [by intros|done]. }
    intros clt. eapply hoare_bind.
    { apply (hoare_call_frame I); [by intros|done]. }
    intros off. eapply hoare_bind.
    { by apply (hoare_modify _ _ (fun _ => I)). }
    intros ?. eapply hoare_bind.
    { apply (hoare_on_buffers _ _ (fun _ => windowed b c polls0)).
      intros w Hw. cbn zeta.
      destruct (windowed_append b c polls0 _ _ clt off w Hw) as (bf' & -> & Hw').
      exact Hw'. }
    intros ?. eapply hoare_bind.
    { by apply (hoare_log _ _ (fun _ => windowed b c polls0)). }
    intros ?. eapply hoare_bind.
    { apply (hoare_call_frame (windowed b c polls0)); [by intros|done]. }
    intros t. eapply hoare_bind.
    { by apply (hoare_modify _ _ (fun _ => windowed b c polls0)). }
    intros ?. unfold throttle. eapply hoare_bind.
    { by apply (hoare_gets _ _ (fun _ => windowed b c polls0)). }
    intros e. apply busy_wait_frame. by intros. }
  intros ?. eapply hoare_bind.
  { apply (hoare_call_frame (windowed b c polls0)); [by intros|done]. }
  intros t. by apply hoare_modify.
Qed.

Lemma while_running_windowed b c polls0 dt n :
  hoare (windowed b c polls0) (while_running dt n)
    (fun _ => windowed b c polls0) anything.
Proof.
  induction n as [|n IH]; simpl; [by apply hoare_ret|].
  eapply hoare_bind; [apply loop_body_windowed|]. intros ?. exact IH.
Qed.

End StreamWindow.

(** X14. The data buffer of [main] is the window over the stream.  When
    every poll of the stream returns nothing or a valid chunk, in any run
    that is still going after [iterations] rounds the data buffer holds the
    last [buffer_size] rows of the initial zero rows followed by all the
    chunks polled so far, in order. *)
Theorem main_buffer_is_the_stream_window {F : Type} {N : Number F}
    (buffer_size channel_count : nat) (dt_read_buffer : F) (iterations : nat)
    (e : env F) (w : world F) :
  Forall (acceptable buffer_size channel_count) (pull_chunk e) ->
  main buffer_size channel_count dt_read_buffer iterations e = Ret tt w ->
  exists consumed,
    pull_chunk e = consumed ++ pull_chunk (script w)
    /\ rows (data_buffer (bufs w))
       = window buffer_size
           (replicate buffer_size (replicate channel_count zero)
            ++ concat (map fst consumed)).
Proof.
  intros Hacc. unfold main.
  set (w0 := World _ _ _ _ _ _). set (prog := bind _ _).
  assert (Hprog : hoare (windowed buffer_size channel_count (pull_chunk e)) prog
                    (fun _ => windowed buffer_size channel_count (pull_chunk e))
                    anything).
  { subst prog. eapply hoare_bind.
    { apply (hoare_call_frame
               (windowed buffer_size channel_count (pull_chunk e)));
        [by intros|done]. }
    intros offset. eapply hoare_bind.
    { by apply (hoare_modify _ _
                  (fun _ => windowed buffer_size channel_count (pull_chunk e))). }
    intros ?. apply while_running_windowed. }
  assert (H0 : windowed buffer_size channel_count (pull_chunk e) w0).
  { split; [split; apply wf_np_zeros|]. split; [done|]. exists [].
    split; [done|]. cbn. rewrite app_nil_r.
    by rewrite window_all by apply length_replicate. }
  specialize (Hprog w0 H0). intros Hrun. rewrite Hrun in Hprog.
  by destruct Hprog as (_ & _ & Hc).
Qed.

(** ** [old_time] after an iteration *)

Section OldTime.
Context {F : Type} `{Number F}.
Implicit Types (w : world F).

Lemma hoare_any {S A} (P : S -> Prop) (m : M S A) :
  hoare P m (fun _ _ => True) (fun _ _ => True).
Proof. intros s _. by destruct (m s). Qed.

Lemma loop_body_binds dt :
  hoare (fun _ => True) (loop_body dt) (fun _ => bound) anything.
Proof.
  unfold loop_body. eapply hoare_bind; [apply hoare_any|].
  intros [chunk timestamps]. eapply hoare_bind; [apply hoare_any|].
  intros ?. eapply hoare_bind; [apply hoare_any|].
  intros t. apply hoare_modify. intros w _. by exists t.
Qed.

Lemma loop_body_boundary dt ps0 :
  hoare (at_boundary dt ps0) (loop_body dt)
    (fun _ w => at_boundary dt ps0 w /\ bound w) anything.
Proof.
  pose proof (loop_body_walk dt ps0) as H1.
  assert (H2 : hoare (at_boundary dt ps0) (loop_body dt) (fun _ => bound)
                 anything).
  { eapply hoare_pre; [|apply loop_body_binds]. done. }
  eapply hoare_conseq; [apply (hoare_and _ _ _ _ _ _ H1 H2)|done|done|done].
Qed.

Lemma while_running_boundary dt ps0 n :
  hoare (fun w => at_boundary dt ps0 w /\ bound w) (while_running dt n)
    (fun _ w => at_boundary dt ps0 w /\ bound w) anything.
Proof.
  induction n as [|n IH]; simpl; [by apply hoare_ret|].
  eapply hoare_bind; [|intros ?; exact IH].
  eapply hoare_pre; [|apply loop_body_boundary]. by intros w [Hw _].
Qed.

End OldTime.

(** X13. After any completed round of the loop [old_time] is assigned, and
    it holds the most recent [perf_counter()] reading the program has
    taken. *)
Theorem old_time_is_the_latest_reading {F : Type} {N : Number F}
    (buffer_size channel_count : nat) (dt_read_buffer : F) (iterations : nat)
    (e : env F) (w : world F) :
  0 < iterations ->
  main buffer_size channel_count dt_read_buffer iterations e = Ret tt w ->
  exists t, old_time w = Some t /\ last_perf (trace w) = Some t.
Proof.
  intros Hk. destruct iterations as [|k]; [lia|]. unfold main.
  set (w0 := World _ _ _ _ _ _). set (prog := bind _ _).
  assert (Hprog : hoare (fun w => trace w = [] /\ old_time w = None
                                  /\ perf_counter (script w) = perf_counter e)
                    prog
                    (fun _ w => at_boundary dt_read_buffer (perf_counter e) w
                                /\ bound w)
                    anything).
  { subst prog. eapply hoare_bind.
    { apply (hoare_call _ _ _ _
               (fun _ => at_boundary dt_read_buffer (perf_counter e)));
        [done|].
      intros w1 c more (Htr & Ho & Hps) E. unfold at_boundary, base.
      cbn [old_time script trace perf_counter]. rewrite Htr, Ho.
      split; [split|split]; try done.
      + apply (guarded_snoc _ _ []); [apply guarded_nil|].
        intros [?|[? ?]]; done.
      + apply (ready_snoc _ []); [apply ready_nil|done]. }
    intros offset. eapply hoare_bind.
    { apply (hoare_modify _ _
               (fun _ => at_boundary dt_read_buffer (perf_counter e))).
      by intros w1 Hw1. }
    intros ?. cbn [while_running]. eapply hoare_bind.
    { apply loop_body_boundary. }
    intros ?. apply while_running_boundary. }
  specialize (Hprog w0 ltac:(done)). intros Hrun. rewrite Hrun in Hprog.
  destruct Hprog as [(_ & _ & Ho) [t Ht]]. exists t. split; [done|].
  by rewrite <- Ho.
Qed.

(** * Instances of the further properties *)

Ltac valid_ok :=
  unfold valid_call, valid_chunk; cbn; repeat split; try lia;
  repeat constructor.

(** A chunk that is too wide, then a valid one. *)
Lemma buffers_keep_their_shape_witness :
  let s' :=
    final_store
      (appends [([[7; 8; 9]], [1], 1.0, 0.1); ([[5; 6]], [2], 2.0, 0.1)]%float
         (Buffers (Matrix 2 [[1; 2]; [3; 4]]%float) (np_zeros 2 3))) in
  wf 2 2 (data_buffer s') /\ wf 2 3 (timestamp_buffer s').
Proof.
  apply (buffers_keep_their_shape 2 2); shape_ok.
Defined.

(** Two and then three samples into four rows: the first sample is gone. *)
Lemma appends_are_a_sliding_window_witness :
  appends [([[5]; [6]], [7; 8], 1.0, 0.1);
           ([[9]; [10]; [11]], [1; 2; 3], 2.0, 0.1)]%float
    (Buffers (np_zeros 4 1) (np_zeros 4 3))
  = Ret tt
      (Buffers
         (Matrix 1
            (window 4
               (rows (np_zeros 4 1)
                ++ concat
                     (map chunk_of
                        [([[5]; [6]], [7; 8], 1.0, 0.1);
                         ([[9]; [10]; [11]], [1; 2; 3], 2.0, 0.1)]%float))))
         (Matrix 3
            (window 4
               (rows (np_zeros 4 3)
                ++ concat
                     (map records_of
                        [([[5]; [6]], [7; 8], 1.0, 0.1);
                         ([[9]; [10]; [11]], [1; 2; 3], 2.0, 0.1)]%float))))).
Proof.
  apply (appends_are_a_sliding_window 4 1); [shape_ok|shape_ok|].
  repeat constructor; valid_ok.
Defined.

Lemma two_appends_equal_one_witness :
  (do getRingbufferValues [[5]]%float [7]%float 1.0%float 0.1%float ;;
   getRingbufferValues [[6]; [9]]%float [8; 10]%float 1.0%float 0.1%float)
    (Buffers (np_zeros 4 1) (np_zeros 4 3))
  = getRingbufferValues ([[5]] ++ [[6]; [9]])%float ([7] ++ [8; 10])%float
      1.0%float 0.1%float (Buffers (np_zeros 4 1) (np_zeros 4 3)).
Proof.
  apply (two_appends_equal_one 4 1);
    [shape_ok | shape_ok | valid_ok | valid_ok | simpl; lia].
Defined.

Lemma narrow_samples_fill_every_channel_witness :
  getRingbufferValues (map (fun x => [x]) [7; 8]%float) [1; 2]%float
    1.0%float 0.1%float
    (Buffers (Matrix 2 [[1; 2]; [3; 4]; [5; 6]]%float) (np_zeros 3 3))
  = Ret tt
      (Buffers
         (Matrix 2
            (drop (length [7; 8]%float) (rows (Matrix 2 [[1; 2]; [3; 4]; [5; 6]]%float))
             ++ map (fun x => replicate 2 x) [7; 8]%float))
         (Matrix 3
            (drop (length [7; 8]%float) (rows (np_zeros 3 3))
             ++ map (fun t => [t; 1.0; 0.1]%float) [1; 2]%float))).
Proof.
  apply (narrow_samples_fill_every_channel 3 2);
    [shape_ok | shape_ok | simpl; lia | reflexivity].
Defined.

Lemma single_timestamp_is_shared_witness :
  getRingbufferValues [[5]; [6]]%float [9]%float 1.0%float 0.1%float
    (Buffers (np_zeros 4 1) (np_zeros 4 3))
  = Ret tt
      (Buffers
         (Matrix 1 (drop (length [[5]; [6]]%float) (rows (np_zeros 4 1))
                    ++ [[5]; [6]]%float))
         (Matrix 3 (drop (length [[5]; [6]]%float) (rows (np_zeros 4 3))
                    ++ replicate (length [[5]; [6]]%float)
                         [9; 1.0; 0.1]%float))).
Proof.
  apply (single_timestamp_is_shared 4 1);
    [shape_ok | shape_ok | simpl; lia | repeat constructor].
Defined.

(** A timestamp buffer with two columns. *)
Lemma narrow_timestamp_buffer_raises_witness :
  exists s',
    getRingbufferValues [[5]; [6]]%float [7; 8]%float 1.0%float 0.1%float
      (Buffers (np_zeros 4 1) (np_zeros 4 2))
    = Raise IndexError s'
    /\ data_buffer s'
       = Matrix 1 (drop (length [[5]; [6]]%float) (rows (np_zeros 4 1))
                   ++ [[5]; [6]]%float)
    /\ wf 4 2 (timestamp_buffer s').
Proof.
  apply (narrow_timestamp_buffer_raises 4 1 2);
    [shape_ok | shape_ok | lia | valid_ok].
Defined.

Lemma report_of_an_appended_sample_witness :
  exists s' row,
    getRingbufferValues [[5]; [6]]%float [10.0; 10.1]%float 10.5%float
      0.05%float (Buffers (np_zeros 4 1) (np_zeros 4 3)) = Ret tt s'
    /\ rows (timestamp_buffer s') !! 2 = Some row
    /\ sendDetectedError "team1" "example_team" row 10.6%float
       = inr (Post url (Report "team1" "example_team" 10.0%float
                          (sub 10.6 10.5)%float
                          (sub (sub 10.5 10.0) 0.05)%float)).
Proof.
  apply (report_of_an_appended_sample 4 1 (np_zeros 4 1) (np_zeros 4 3)
           [[5]; [6]]%float [10.0; 10.1]%float 10.5%float 0.05%float
           "team1" "example_team" 10.6%float 2 10.0%float);
    [shape_ok | shape_ok | valid_ok | simpl; lia | reflexivity].
Defined.

(** Three readings inside the interval, then one at its end. *)
Lemma busy_wait_stops_at_first_late_reading_witness :
  let w :=
    World (Buffers (np_zeros 4 1) (np_zeros 4 3)) None None (Some 0%float)
      (Env [] [] [] [0.01; 0.02; 0.03; 0.04; 0.05]%float) [] in
  throttle 0.04%float w
  = Ret tt
      (World (bufs w) (timestamp_offset w) (local_clock_time w)
         (Some 0%float)
         (Env (pull_chunk (script w)) (local_clock (script w))
              (time_correction (script w)) [0.05]%float)
         (trace w ++ map PerfCounter ([0.01; 0.02; 0.03] ++ [0.04])%float)).
Proof.
  cbn zeta.
  apply (proj1 (busy_wait_stops_at_first_late_reading 0.04%float 0%float
                  (World (Buffers (np_zeros 4 1) (np_zeros 4 3)) None None
                     (Some 0%float)
                     (Env [] [] [] [0.01; 0.02; 0.03; 0.04; 0.05]%float) [])
                  eq_refl)
           [0.01; 0.02; 0.03]%float 0.04%float [0.05]%float);
    [reflexivity | repeat constructor | reflexivity].
Defined.

Lemma iteration_with_a_chunk_witness :
  loop_body 0.04%float
    (World (Buffers (np_zeros 4 1) (np_zeros 4 3)) (Some 0.1%float) None
       (Some 0%float)
       (Env [([5] :: [[6]], [7; 8])]%float (1 :: 2 :: [])%float
            (0.1 :: [])%float ([0.01; 0.02] ++ 0.05 :: 0.06 :: [])%float)
       [])
  = Ret tt
      (World
         (Buffers
            (Matrix 1 (drop (S (length [[6]]%float)) (rows (np_zeros 4 1))
                       ++ [5]%float :: [[6]]%float))
            (Matrix 3 (drop (S (length [[6]]%float)) (rows (np_zeros 4 3))
                       ++ map (fun x => [x; 1; 0.1]%float) [7; 8]%float)))
         (Some 0.1%float) (Some 2%float) (Some 0.06%float) (Env [] [] [] [])
         ([] ++ [Polled (S (length [[6]]%float)); LocalClock 1%float;
                 TimeCorrection 0.1%float; Appended; LocalClock 2%float]
             ++ map PerfCounter ([0.01; 0.02] ++ [0.05])%float
             ++ [PerfCounter 0.06%float])).
Proof.
  apply (iteration_with_a_chunk 4 1 0.04%float 0%float);
    [shape_ok | shape_ok | valid_ok | repeat constructor | reflexivity].
Defined.

(** A chunk of three channels for a buffer of one. *)
Lemma append_error_stops_the_loop_witness :
  while_running 0.04%float 3
    (World (Buffers (Matrix 1 [[1]; [2]]%float) (np_zeros 2 3)) (Some 0.1%float)
       None (Some 0%float)
       (Env [([[7; 8; 9]], [1]); ([[3]], [2])]%float [1; 2]%float
            [0.1; 0.1]%float [0.05; 0.06]%float)
       [])
  = Raise ValueError
      (World (Buffers (Matrix 1 [[2]; [2]]%float) (np_zeros 2 3))
         (Some 0.1%float) None (Some 0%float)
         (Env [([[3]], [2])]%float [2]%float [0.1]%float [0.05; 0.06]%float)
         ([] ++ [Polled (S (length (@nil (list float)))); LocalClock 1%float;
                 TimeCorrection 0.1%float])).
Proof.
  apply (append_error_stops_the_loop 0.04%float 2
           (Buffers (Matrix 1 [[1]; [2]]%float) (np_zeros 2 3))).
  vm_compute. reflexivity.
Defined.

(** An empty poll, then a chunk of two samples. *)
Lemma old_time_is_the_latest_reading_witness :
  let w :=
    World
      (Buffers (Matrix 1 [[0]; [0]; [5]; [6]]%float)
         (Matrix 3 [[0; 0; 0]; [0; 0; 0]; [7; 1; 0.1]; [8; 1; 0.1]]%float))
      (Some 0.1%float) (Some 2%float) (Some 0.06%float)
      (Env [] [] [0.1]%float [])
      [TimeCorrection 0.1; Polled 0; PerfCounter 0; Polled 2; LocalClock 1;
       TimeCorrection 0.1; Appended; LocalClock 2; PerfCounter 0.05;
       PerfCounter 0.06]%float in
  exists t, old_time w = Some t /\ last_perf (trace w) = Some t.
Proof.
  cbn zeta.
  apply (old_time_is_the_latest_reading 4 1 0.04%float 2
           (Env [([], []); ([[5]; [6]], [7; 8])]%float [1; 2]%float
              [0.1; 0.1; 0.1]%float [0; 0.05; 0.06]%float));
    [lia | vm_compute; reflexivity].
Defined.

Lemma main_buffer_is_the_stream_window_witness :
  let e :=
    Env [([], []); ([[5]; [6]], [7; 8])]%float [1; 2]%float
      [0.1; 0.1; 0.1]%float [0; 0.05; 0.06]%float in
  let w :=
    World
      (Buffers (Matrix 1 [[0]; [0]; [5]; [6]]%float)
         (Matrix 3 [[0; 0; 0]; [0; 0; 0]; [7; 1; 0.1]; [8; 1; 0.1]]%float))
      (Some 0.1%float) (Some 2%float) (Some 0.06%float)
      (Env [] [] [0.1]%float [])
      [TimeCorrection 0.1; Polled 0; PerfCounter 0; Polled 2; LocalClock 1;
       TimeCorrection 0.1; Appended; LocalClock 2; PerfCounter 0.05;
       PerfCounter 0.06]%float in
  exists consumed,
    pull_chunk e = consumed ++ pull_chunk (script w)
    /\ rows (data_buffer (bufs w))
       = window 4 (replicate 4 (replicate 1 zero) ++ concat (map fst consumed)).
Proof.
  cbn zeta.
  apply (main_buffer_is_the_stream_window 4 1 0.04%float 2
           (Env [([], []); ([[5]; [6]], [7; 8])]%float [1; 2]%float
              [0.1; 0.1; 0.1]%float [0; 0.05; 0.06]%float)).
  - constructor; [by left|]. constructor; [right; valid_ok|constructor].
  - vm_compute. reflexivity.
Defined.
